(** * ParallelLauncher: SignalHandler and ThreadManager

    A shallow embedding of [includes/SignalHandler.hpp],
    [src/SignalHandler.cpp] and [includes/ThreadManager.hpp].

    Each method is a function on an explicit state, and a call is one
    transition: the methods of [ThreadManager] that touch the table hold
    [threads_mtx_] throughout, and the state is looked at between calls.
    Memory orderings carry no content in this model, and a query that runs
    while another call is under way is outside it.
    [uint32_t] values are integers in [Z] with the wrap-around written out. *)

From Stdlib Require Import ZArith Bool List Lia.
From stdpp Require Import gmap list fin_maps.
Import ListNotations.

Local Open Scope Z_scope.

(** ** Shared: 32-bit unsigned arithmetic and thrown exceptions *)

Definition wrap32 (z : Z) : Z := z mod 2 ^ 32.

(** [~x] on a [uint32_t]. *)
Definition not32 (x : Z) : Z := Z.lxor x (2 ^ 32 - 1).

(** [1U << s]; the source only shifts by amounts in [0, 32). *)
Definition shl1 (s : Z) : Z := wrap32 (Z.shiftl 1 s).

(** Conversion of an integer to [bool], as in [return word;]. *)
Definition to_bool (x : Z) : bool := negb (x =? 0).

(** The exceptions the two classes throw. [system_error] carries the code;
    [invalid_argument] carries the offending signal or thread identity. *)
Inductive exn : Type :=
  | logic_error
  | invalid_argument (what : Z)
  | system_error (errc : Z)
  | bad_alloc.

Inductive result (A : Type) : Type :=
  | Ok (a : A)
  | Throw (e : exn).
Arguments Ok {A} a.
Arguments Throw {A} e.

Module SignalHandler.

(** Index into the signal bitmask array. *)
Module SIG_FLAGS_ENM.
Inductive t : Type := OS_sigs | RT_sigs | reserved.

Definition eqb (a b : t) : bool :=
  match a, b with
  | OS_sigs, OS_sigs | RT_sigs, RT_sigs | reserved, reserved => true
  | _, _ => false
  end.
End SIG_FLAGS_ENM.
Import SIG_FLAGS_ENM.

(** [struct SignalMask_t]. *)
Record SignalMask_t : Type := mkMask {
  mask_OS_sigs : Z;
  mask_RT_sigs : Z;
  mask_reserved : Z
}.

(** [static std::atomic<uint32_t> sig_flags_[SIGFLAGN]], [SIGFLAGN = 3]. *)
Record sig_flags_t : Type := mkFlags {
  flag_OS : Z;
  flag_RT : Z;
  flag_reserved : Z
}.

Definition flags_zero : sig_flags_t := mkFlags 0 0 0.

Definition load (e : SIG_FLAGS_ENM.t) (fl : sig_flags_t) : Z :=
  match e with
  | OS_sigs => flag_OS fl
  | RT_sigs => flag_RT fl
  | reserved => flag_reserved fl
  end.

Definition store (e : SIG_FLAGS_ENM.t) (v : Z) (fl : sig_flags_t) : sig_flags_t :=
  match e with
  | OS_sigs => mkFlags v (flag_RT fl) (flag_reserved fl)
  | RT_sigs => mkFlags (flag_OS fl) v (flag_reserved fl)
  | reserved => mkFlags (flag_OS fl) (flag_RT fl) v
  end.

(** [fetch_or] and [fetch_and]: the value before, and the array after. *)
Definition fetch_or (e : SIG_FLAGS_ENM.t) (m : Z) (fl : sig_flags_t)
  : Z * sig_flags_t :=
  (load e fl, store e (Z.lor (load e fl) m) fl).

Definition fetch_and (e : SIG_FLAGS_ENM.t) (m : Z) (fl : sig_flags_t)
  : Z * sig_flags_t :=
  (load e fl, store e (Z.land (load e fl) m) fl).

Section Platform.

(** [NSIG] comes from [<csignal>]; it is 65 on Linux with glibc. *)
Variable NSIG : Z.

Definition illegal (signo : Z) : bool := (signo <=? 0) || (signo >=? NSIG).

Definition signal_bitmask (signo : Z) : Z :=
  if illegal signo then 0
  else if signo <? 32 then shl1 (signo - 1)
  else if signo <? 64 then shl1 (signo - 32)
  else shl1 (signo - 64).

(** The category selection shared by [test_signal] and [pop_signal]. *)
Definition flagenm_of (sig : Z) : SIG_FLAGS_ENM.t :=
  if (sig >=? 32) && (sig <? 64) then RT_sigs
  else if sig >=? 64 then reserved
  else OS_sigs.

Definition test_signal (sig : Z) (fl : sig_flags_t) : bool :=
  if illegal sig then false
  else to_bool (Z.land (load (flagenm_of sig) fl) (signal_bitmask sig)).

Definition test_all_signals (fl : sig_flags_t) : bool * SignalMask_t :=
  let sigbitmask :=
    mkMask (load OS_sigs fl) (load RT_sigs fl) (load reserved fl) in
  (to_bool (mask_OS_sigs sigbitmask)
   || to_bool (mask_RT_sigs sigbitmask)
   || to_bool (mask_reserved sigbitmask),
   sigbitmask).

(** [pop_signal] returns the value [fetch_and] hands back, converted to
    [bool]. *)
Definition pop_signal (sig : Z) (fl : sig_flags_t) : bool * sig_flags_t :=
  if illegal sig then (false, fl)
  else
    let '(old, fl') :=
      fetch_and (flagenm_of sig) (not32 (signal_bitmask sig)) fl in
    (to_bool old, fl').

Definition pop_all_signals (fl : sig_flags_t)
  : bool * SignalMask_t * sig_flags_t :=
  let '(ret, sigbitmask) := test_all_signals fl in
  let fl := store OS_sigs 0 fl in
  let fl := store RT_sigs 0 fl in
  let fl := store reserved 0 fl in
  (ret, sigbitmask, fl).

(** The installed handler: what one delivery of [sig] does. *)
Definition handler_callback (sig : Z) (fl : sig_flags_t) : sig_flags_t :=
  if sig <? 32 then snd (fetch_or OS_sigs (signal_bitmask sig) fl)
  else if sig <? 64 then snd (fetch_or RT_sigs (signal_bitmask sig) fl)
  else snd (fetch_or reserved (signal_bitmask sig) fl).

(** The word of a [SignalMask_t] that belongs to a category. *)
Definition mask_word (e : SIG_FLAGS_ENM.t) (m : SignalMask_t) : Z :=
  match e with
  | OS_sigs => mask_OS_sigs m
  | RT_sigs => mask_RT_sigs m
  | reserved => mask_reserved m
  end.

(** The amount by which [signal_bitmask] shifts for a legal signal. *)
Definition bit_index (signo : Z) : Z :=
  if signo <? 32 then signo - 1
  else if signo <? 64 then signo - 32
  else signo - 64.

(** Every word is a [uint32_t]. *)
Definition words_in_range (fl : sig_flags_t) : Prop :=
  forall e, 0 <= load e fl < 2 ^ 32.

(** A run of deliveries, first element first. *)
Definition deliver_all (sigs : list Z) (fl : sig_flags_t) : sig_flags_t :=
  fold_left (fun fl sig => handler_callback sig fl) sigs fl.

(** The union of the bits of the signals of [sigs] that belong to the
    category [e]: what a category word is expected to hold after the
    deliveries [sigs], when it was zero before. *)
Definition union_of_bits (e : SIG_FLAGS_ENM.t) (sigs : list Z) : Z :=
  fold_right Z.lor 0
    (map signal_bitmask
         (List.filter (fun sig => SIG_FLAGS_ENM.eqb (flagenm_of sig) e) sigs)).

(** *** The operating system as the constructors see it *)

(** What a disposition points to: the default action, ignore, the handler
    of this class, or some handler installed by other code. *)
Inductive sighandler : Type :=
  | SIG_DFL
  | SIG_IGN
  | handler_callback_ptr
  | foreign_handler (addr : Z).

(** [struct sigaction], the fields the constructors write. *)
Record sigaction_t : Type := mkSigaction {
  sa_flags : Z;
  sa_sigaction : sighandler
}.

(** Process-wide state: the two static members, the signal mask of the
    constructing thread and the dispositions the kernel holds. A signal
    without an entry has the default disposition. *)
Record process : Type := mkProcess {
  instance_exists_ : bool;
  sig_flags_ : sig_flags_t;
  blocked : gset Z;
  dispositions : gmap Z sigaction_t
}.

Definition set_instance_exists (b : bool) (p : process) : process :=
  mkProcess b (sig_flags_ p) (blocked p) (dispositions p).
Definition set_sig_flags (fl : sig_flags_t) (p : process) : process :=
  mkProcess (instance_exists_ p) fl (blocked p) (dispositions p).
Definition set_blocked (s : gset Z) (p : process) : process :=
  mkProcess (instance_exists_ p) (sig_flags_ p) s (dispositions p).
Definition set_dispositions (d : gmap Z sigaction_t) (p : process) : process :=
  mkProcess (instance_exists_ p) (sig_flags_ p) (blocked p) d.

(** How the system calls answer during one constructor or destructor:
    the return value of [pthread_sigmask], the signals on which
    [sigaction] returns [-1] and the [errno] it leaves, what an
    [old_sa_struct] holds when [sigaction] did not fill it, and the error
    code with which the dispatcher thread fails to start (0: it starts). *)
Record oracle : Type := mkOracle {
  sigmask_errc : Z;
  sigaction_fails : Z -> bool;
  sigaction_errno : Z;
  uninitialised : sigaction_t;
  dispatcher_errc : Z
}.

Inductive how_t : Type := SIG_BLOCK | SIG_UNBLOCK.

(** [pthread_sigmask(how, &set, nullptr)]: return code and new state.
    The set is applied as given. That the kernel never blocks SIGKILL and
    SIGSTOP, and that glibc leaves its two internal signals (32, 33) out,
    is not modelled: [blocked] is the mask of the thread for sets free of
    those four signals. *)
Definition pthread_sigmask (o : oracle) (how : how_t) (set : gset Z)
    (p : process) : Z * process :=
  if sigmask_errc o =? 0 then
    (0, set_blocked (match how with
                     | SIG_BLOCK => blocked p ∪ set
                     | SIG_UNBLOCK => blocked p ∖ set
                     end) p)
  else (sigmask_errc o, p).

Definition disposition_of (p : process) (signum : Z) : sigaction_t :=
  default (mkSigaction 0 SIG_DFL) (dispositions p !! signum).

(** [sigaction(signum, &act, &oldact)]: return code, [oldact], new state. *)
Definition sigaction (o : oracle) (signum : Z) (act : sigaction_t)
    (p : process) : Z * sigaction_t * process :=
  if sigaction_fails o signum then (-1, uninitialised o, p)
  else (0, disposition_of p signum,
        set_dispositions (<[signum := act]> (dispositions p)) p).

(** The dispatcher thread; it unblocks [sigmask_] on itself and waits. *)
Record dispatcher_t : Type := mkDispatcher {
  dispatcher_unblocked : gset Z
}.

(** The non-static members of a constructed [SignalHandler]. *)
Record t : Type := mkSignalHandler {
  sigmask_ : gset Z;
  old_handlers_ : gmap Z sigaction_t;
  dispatch_thread_ : dispatcher_t
}.

(** [SA_SIGINFO] comes from [<csignal>]; it is 4 on Linux. *)
Variable SA_SIGINFO : Z.

Definition restore_actions (o : oracle) (sigmask : gset Z)
    (old_handlers : gmap Z sigaction_t) (p : process) : process :=
  let p :=
    map_fold (fun signum handler p => snd (sigaction o signum handler p))
             p old_handlers in
  snd (pthread_sigmask o SIG_UNBLOCK sigmask p).

Definition clear_sig_flags (p : process) : process :=
  set_sig_flags
    (store reserved 0 (store RT_sigs 0 (store OS_sigs 0 (sig_flags_ p)))) p.

(** The tail both constructors share in the source text: zero the three
    words and start the dispatcher. *)
Definition start_dispatcher (o : oracle) (sigmask : gset Z)
    (old_handlers : gmap Z sigaction_t) (p : process) : process * result t :=
  let p := clear_sig_flags p in
  if dispatcher_errc o =? 0 then
    (p, Ok (mkSignalHandler sigmask old_handlers (mkDispatcher sigmask)))
  else (p, Throw (system_error (dispatcher_errc o))).

(** **** Constructor from a list of signals and one [flags] *)

Fixpoint first_illegal (signal_list : list Z) : option Z :=
  match signal_list with
  | [] => None
  | signal :: rest =>
      if illegal signal then Some signal else first_illegal rest
  end.

(** The loop of [sigaddset], whose result the constructor ignores.
    [sigaddset] is taken to add every legal signal; glibc refuses its two
    internal signals (32, 33), on which [sigaction] fails as well. *)
Definition add_all (signal_list : list Z) : gset Z :=
  fold_left (fun set signal => {[signal]} ∪ set) signal_list ∅.

Fixpoint install (o : oracle) (flags : Z) (throw_sig_error : bool)
    (signal_list : list Z) (sigmask : gset Z)
    (old_handlers : gmap Z sigaction_t) (p : process)
  : process * result (gmap Z sigaction_t) :=
  match signal_list with
  | [] => (p, Ok old_handlers)
  | signal :: rest =>
      let sa_struct := mkSigaction (Z.lor flags SA_SIGINFO) handler_callback_ptr in
      let '(rc, old_sa_struct, p) := sigaction o signal sa_struct p in
      if (rc =? -1) && throw_sig_error then
        let p := restore_actions o sigmask old_handlers p in
        (set_instance_exists false p, Throw (system_error (sigaction_errno o)))
      else
        install o flags throw_sig_error rest sigmask
                (<[signal := old_sa_struct]> old_handlers) p
  end.

Definition construct (o : oracle) (signal_list : list Z) (flags : Z)
    (throw_sig_error : bool) (p : process) : process * result t :=
  if instance_exists_ p then (p, Throw logic_error)
  else
    let p := set_instance_exists true p in
    match first_illegal signal_list with
    | Some signal =>
        (set_instance_exists false p, Throw (invalid_argument signal))
    | None =>
        let sigmask := add_all signal_list in
        let '(errc, p) := pthread_sigmask o SIG_BLOCK sigmask p in
        if negb (errc =? 0) then
          let p := snd (pthread_sigmask o SIG_UNBLOCK sigmask p) in
          (set_instance_exists false p, Throw (system_error errc))
        else
          match install o flags throw_sig_error signal_list sigmask ∅ p with
          | (p, Throw e) => (p, Throw e)
          | (p, Ok old_handlers) => start_dispatcher o sigmask old_handlers p
          end
    end.

(** **** Constructor from a list of (signal, flags) pairs *)

Fixpoint first_illegal_pair (initialiser_list : list (Z * Z)) : option Z :=
  match initialiser_list with
  | [] => None
  | (signal, _) :: rest =>
      if illegal signal then Some signal else first_illegal_pair rest
  end.

(** The loop of [sigaddset] of this constructor, taken as in [add_all]. *)
Definition add_all_pairs (initialiser_list : list (Z * Z)) : gset Z :=
  fold_left (fun set '(signal, _) => {[signal]} ∪ set) initialiser_list ∅.

Fixpoint install_pairs (o : oracle) (throw_sig_error : bool)
    (initialiser_list : list (Z * Z)) (sigmask : gset Z)
    (old_handlers : gmap Z sigaction_t) (p : process)
  : process * result (gmap Z sigaction_t) :=
  match initialiser_list with
  | [] => (p, Ok old_handlers)
  | (signal, flags) :: rest =>
      let sa_struct := mkSigaction (Z.lor flags SA_SIGINFO) handler_callback_ptr in
      let '(rc, old_sa_struct, p) := sigaction o signal sa_struct p in
      if (rc =? -1) && throw_sig_error then
        let p := restore_actions o sigmask old_handlers p in
        (set_instance_exists false p, Throw (system_error (sigaction_errno o)))
      else
        install_pairs o throw_sig_error rest sigmask
                      (<[signal := old_sa_struct]> old_handlers) p
  end.

Definition construct_pairs (o : oracle) (initialiser_list : list (Z * Z))
    (throw_sig_error : bool) (p : process) : process * result t :=
  if instance_exists_ p then (p, Throw logic_error)
  else
    let p := set_instance_exists true p in
    match first_illegal_pair initialiser_list with
    | Some signal =>
        (set_instance_exists false p, Throw (invalid_argument signal))
    | None =>
        let sigmask := add_all_pairs initialiser_list in
        let '(errc, p) := pthread_sigmask o SIG_BLOCK sigmask p in
        if negb (errc =? 0) then
          let p := snd (pthread_sigmask o SIG_UNBLOCK sigmask p) in
          (set_instance_exists false p, Throw (system_error errc))
        else
          match install_pairs o throw_sig_error initialiser_list sigmask ∅ p with
          | (p, Throw e) => (p, Throw e)
          | (p, Ok old_handlers) => start_dispatcher o sigmask old_handlers p
          end
    end.

(** **** Destructor

    The dispatcher is told to stop, woken and joined; a failing join is
    swallowed, so the destructor always reaches the last two steps. *)
Definition destruct_ (o : oracle) (self : t) (p : process) : process :=
  let p := restore_actions o (sigmask_ self) (old_handlers_ self) p in
  let p := clear_sig_flags p in
  set_instance_exists false p.

(** The disposition of [signum] once [restore_actions] has run over
    [old_handlers] in the state [p]: the saved one where there is one and
    [sigaction] takes it, the current one otherwise. *)
Definition restored (o : oracle) (old_handlers : gmap Z sigaction_t)
    (p : process) (signum : Z) : sigaction_t :=
  default (mkSigaction 0 SIG_DFL)
    (match old_handlers !! signum with
     | Some handler =>
         if sigaction_fails o signum then dispositions p !! signum
         else Some handler
     | None => dispositions p !! signum
     end).

(** The pair list [(s1, flags) .. (sn, flags)] for the signals
    [s1 .. sn]. *)
Definition with_flags (flags : Z) (signal_list : list Z) : list (Z * Z) :=
  map (fun signal => (signal, flags)) signal_list.

(** *** Conditions on the arguments and on the system calls *)

(** Every requested signal is in the legal range. *)
Definition all_legal (signal_list : list Z) : bool :=
  forallb (fun signal => negb (illegal signal)) signal_list.

(** No system call stands in the way of a construction: both
    [pthread_sigmask] and the start of the dispatcher succeed, and either
    installation failures are skipped or [sigaction] fails on none of the
    requested signals. *)
Definition os_cooperates (o : oracle) (throw_sig_error : bool)
    (signal_list : list Z) : bool :=
  (sigmask_errc o =? 0) && (dispatcher_errc o =? 0)
  && (negb throw_sig_error
      || forallb (fun signal => negb (sigaction_fails o signal)) signal_list).

End Platform.

(** *** A process on Linux, for the examples *)

(** A process that has not constructed a [SignalHandler]: flag clear,
    words zero, nothing blocked, every disposition the default. *)
Definition fresh_process : process := mkProcess false flags_zero ∅ ∅.

(** System calls that answer as Linux with glibc does: [pthread_sigmask]
    and the start of a thread succeed, and [sigaction] refuses SIGKILL
    (9), SIGSTOP (19) and the two signals glibc keeps for itself (32, 33)
    with [EINVAL] (22). *)
Definition linux_oracle : oracle :=
  mkOracle 0 (fun signum => (signum =? 9) || (signum =? 19)
                            || (signum =? 32) || (signum =? 33)) 22
           (mkSigaction 0 SIG_DFL) 0.

End SignalHandler.

Module ThreadManager.

(** A [std::thread::id] is a [positive].

    One [std::jthread] of the table: the stop state of its own stop source
    and whether the lambda it runs has returned from [worker]. *)
Record jthread : Type := mkJthread {
  stop_state : bool;
  returned : bool
}.

(** The data members; [bucket_count_] is the bucket count of [threads_]. *)
Record t : Type := mkThreadManager {
  thread_counter_ : Z;
  global_stop_source_ : bool;
  threads_ : gmap positive jthread;
  bucket_count_ : nat
}.

(** [ThreadManager() = default]. *)
Definition init : t := mkThreadManager 0 false ∅ 1.

Definition set_thread_counter (c : Z) (tm : t) : t :=
  mkThreadManager c (global_stop_source_ tm) (threads_ tm) (bucket_count_ tm).
Definition set_global_stop (b : bool) (tm : t) : t :=
  mkThreadManager (thread_counter_ tm) b (threads_ tm) (bucket_count_ tm).
Definition set_threads (m : gmap positive jthread) (tm : t) : t :=
  mkThreadManager (thread_counter_ tm) (global_stop_source_ tm) m
                  (bucket_count_ tm).
Definition set_bucket_count (n : nat) (tm : t) : t :=
  mkThreadManager (thread_counter_ tm) (global_stop_source_ tm) (threads_ tm) n.

Definition fetch_add (tm : t) : t :=
  set_thread_counter (wrap32 (thread_counter_ tm + 1)) tm.
Definition fetch_sub (tm : t) : t :=
  set_thread_counter (wrap32 (thread_counter_ tm - 1)) tm.

(** How the [try] block of [spawn_thread] goes: the [std::jthread]
    constructor throws the exception [e], whichever it is
    ([std::system_error] when the thread cannot be started,
    [std::bad_alloc] when memory runs out); or the thread starts with
    identity [id] and [threads_[tid]] throws while making the entry; or
    both succeed. *)
Inductive start_t : Type :=
  | start_throws (e : exn)
  | insert_throws (id : positive)
  | started (id : positive).

(** [std::jthread::join] on a thread of the table: it returns once the
    lambda has run to its end, and the last act of the lambda is
    [thread_counter_.fetch_sub(1)]. *)
Definition join_thread (th : jthread) (tm : t) : t :=
  if returned th then tm else fetch_sub tm.

(** [spawn_thread]. When [threads_[tid]] throws, the local [thread] is
    still joinable: leaving the [try] block destroys it, and the destructor
    of [std::jthread] requests a stop and joins, before the [catch] block
    runs. The [catch] block rethrows what was thrown. The identity of a
    started thread differs from that of every thread not yet joined, so
    [threads_[tid]] makes a new entry. *)
Definition spawn_thread (st : start_t) (tm : t) : t * result positive :=
  let tm := fetch_add tm in
  match st with
  | start_throws e =>
      let tm := fetch_sub tm in
      (tm, Throw e)
  | insert_throws id =>
      let tm := join_thread (mkJthread true false) tm in
      let tm := fetch_sub tm in
      (tm, Throw bad_alloc)
  | started id =>
      let m := <[id := mkJthread false false]> (threads_ tm) in
      let tm := set_threads m tm in
      (set_bucket_count (Nat.max (bucket_count_ tm) (size m)) tm, Ok id)
  end.

(** The lambda of thread [id] comes back from [worker] and decrements. *)
Definition worker_returns (id : positive) (tm : t) : t :=
  match threads_ tm !! id with
  | Some th =>
      if returned th then tm
      else fetch_sub (set_threads (<[id := mkJthread (stop_state th) true]>
                                     (threads_ tm)) tm)
  | None => tm
  end.

(** [rehash] fixes the bucket count only from below; the least value
    allowed is taken. *)
Definition reserve (limit : nat) (tm : t) : t :=
  set_bucket_count (Nat.max limit (size (threads_ tm))) tm.

Definition capacity (tm : t) : nat := bucket_count_ tm.

Definition request_stop_all (tm : t) : t * bool :=
  (set_global_stop true tm, negb (global_stop_source_ tm)).

Definition stop_requested_all (tm : t) : bool := global_stop_source_ tm.

Definition request_stop (id : positive) (tm : t) : t * result bool :=
  match threads_ tm !! id with
  | None => (tm, Throw (invalid_argument (Z.pos id)))
  | Some th =>
      (set_threads (<[id := mkJthread true (returned th)]> (threads_ tm)) tm,
       Ok (negb (stop_state th)))
  end.

Definition stop_requested (id : positive) (tm : t) : result bool :=
  match threads_ tm !! id with
  | None => Throw (invalid_argument (Z.pos id))
  | Some th => Ok (stop_state th)
  end.

(** [join]: every thread of the table is joined, then the table is
    cleared. *)
Definition join (tm : t) : t :=
  let tm := map_fold (fun _ th tm => join_thread th tm) tm (threads_ tm) in
  set_threads ∅ tm.

Definition total_threads (tm : t) : Z := Z.of_nat (size (threads_ tm)).

Definition alive_threads (tm : t) : Z := thread_counter_ tm.

Definition all_running (tm : t) : bool :=
  (thread_counter_ tm >=? Z.of_nat (size (threads_ tm)))
  && negb (Z.of_nat (size (threads_ tm)) =? 0).

Definition any_running (tm : t) : bool := thread_counter_ tm >? 0.

(** *** Runs of the registry

    The operations that change a registry, and when each can happen: a
    started thread has an identity not in the table, and only a thread of
    the table that has not yet returned can return. *)
Inductive event : Type :=
  | ev_spawn (st : start_t)
  | ev_worker_returns (id : positive)
  | ev_join
  | ev_request_stop (id : positive)
  | ev_request_stop_all
  | ev_reserve (limit : nat).

Definition apply_event (ev : event) (tm : t) : t :=
  match ev with
  | ev_spawn st => fst (spawn_thread st tm)
  | ev_worker_returns id => worker_returns id tm
  | ev_join => join tm
  | ev_request_stop id => fst (request_stop id tm)
  | ev_request_stop_all => fst (request_stop_all tm)
  | ev_reserve limit => reserve limit tm
  end.

Definition enabled (ev : event) (tm : t) : bool :=
  match ev with
  | ev_spawn (insert_throws id) | ev_spawn (started id) =>
      bool_decide (threads_ tm !! id = None)
  | ev_worker_returns id =>
      match threads_ tm !! id with
      | Some th => negb (returned th)
      | None => false
      end
  | _ => true
  end.

(** [run evs tm]: the registry after the events, or [None] when one of
    them cannot happen where it stands. *)
Fixpoint run (evs : list event) (tm : t) : option t :=
  match evs with
  | [] => Some tm
  | ev :: evs =>
      if enabled ev tm then run evs (apply_event ev tm) else None
  end.

(** Whether the [try] block made the entry or the constructor of the
    thread threw: the runs in which no [threads_[tid]] throws. *)
Definition insert_ok (ev : event) : bool :=
  match ev with
  | ev_spawn (insert_throws _) => false
  | _ => true
  end.

(** Threads of the table whose lambda has not returned. *)
Definition running_count (m : gmap positive jthread) : nat :=
  map_fold (fun _ th n => if returned th then n else S n) 0%nat m.

(** The live-count is the number of threads of the table that have not
    returned, as a [uint32_t]. *)
Definition registry_inv (tm : t) : Prop :=
  thread_counter_ tm = wrap32 (Z.of_nat (running_count (threads_ tm))).

(** Thread [id] is in the table and no stop was requested of it. *)
Definition unrequested (id : positive) (tm : t) : Prop :=
  exists th, threads_ tm !! id = Some th /\ stop_state th = false.

(** [ev] is a call of [spawn_thread] that returns [id]. *)
Definition returns_id (id : positive) (ev : event) : bool :=
  match ev with
  | ev_spawn (started id') => Pos.eqb id id'
  | _ => false
  end.

(** [ev] is [request_stop id], or a [join], which reaps every thread. *)
Definition stops_or_reaps (id : positive) (ev : event) : bool :=
  match ev with
  | ev_request_stop id' => Pos.eqb id id'
  | ev_join => true
  | _ => false
  end.

(** [ev] is a call of [request_stop_all]. *)
Definition is_request_stop_all (ev : event) : bool :=
  match ev with
  | ev_request_stop_all => true
  | _ => false
  end.

(** [ev] is a call of [join]. *)
Definition is_join (ev : event) : bool :=
  match ev with
  | ev_join => true
  | _ => false
  end.

(** Thread [id] is in the table and a stop was requested of it. *)
Definition requested (id : positive) (tm : t) : Prop :=
  exists th, threads_ tm !! id = Some th /\ stop_state th = true.

(** One call of [spawn_thread] per identity, each returning it. *)
Definition spawn_all (ids : list positive) : list event :=
  map (fun id => ev_spawn (started id)) ids.

End ThreadManager.

(** * Properties of SignalHandler *)

Section SignalHandlerFacts.

Import SignalHandler SignalHandler.SIG_FLAGS_ENM.

Variable NSIG : Z.

Lemma shl1_small (s : Z) : 0 <= s < 32 -> shl1 s = 2 ^ s.
Proof.
  intros Hs. unfold shl1, wrap32.
  rewrite Z.shiftl_1_l.
  apply Z.mod_small. split.
  - apply Z.pow_nonneg. lia.
  - apply Z.pow_lt_mono_r; lia.
Qed.

Lemma testbit_lor_pow2 (w s i : Z) :
  0 <= s ->
  Z.testbit (Z.lor w (2 ^ s)) i = Z.testbit w i || (i =? s).
Proof.
  intros Hs. rewrite Z.lor_spec. f_equal.
  destruct (Z.eqb_spec i s) as [->|Hne].
  - apply Z.pow2_bits_true. lia.
  - apply Z.pow2_bits_false. congruence.
Qed.

Lemma flags_eta (fl : sig_flags_t) :
  mkFlags (flag_OS fl) (flag_RT fl) (flag_reserved fl) = fl.
Proof. destruct fl; reflexivity. Qed.

Lemma handler_callback_illegal (k : Z) (fl : sig_flags_t) :
  illegal NSIG k = true -> handler_callback NSIG k fl = fl.
Proof.
  intros Hk. unfold handler_callback, signal_bitmask, fetch_or.
  rewrite Hk.
  destruct (k <? 32); [|destruct (k <? 64)]; simpl;
    rewrite Z.lor_0_r; apply flags_eta.
Qed.

Lemma handler_callback_load (k : Z) (e : SIG_FLAGS_ENM.t) (fl : sig_flags_t) :
  load e (handler_callback NSIG k fl)
  = if SIG_FLAGS_ENM.eqb (flagenm_of k) e
    then Z.lor (load e fl) (signal_bitmask NSIG k)
    else load e fl.
Proof.
  unfold handler_callback, flagenm_of.
  destruct (Z.ltb_spec k 32) as [H32|H32].
  - replace (k >=? 32) with false by lia. simpl.
    replace (k >=? 64) with false by lia.
    destruct e; reflexivity.
  - replace (k >=? 32) with true by lia.
    destruct (Z.ltb_spec k 64) as [H64|H64]; simpl.
    + destruct e; reflexivity.
    + replace (k >=? 64) with true by lia.
      destruct e; reflexivity.
Qed.

Lemma signal_bitmask_high_bits (n i : Z) :
  32 <= i -> Z.testbit (signal_bitmask NSIG n) i = false.
Proof.
  intros Hi. unfold signal_bitmask, shl1, wrap32.
  destruct (illegal NSIG n); [apply Z.bits_0|].
  destruct (n <? 32); [|destruct (n <? 64)];
    apply Z.mod_pow2_bits_high; lia.
Qed.

Lemma not32_testbit (x i : Z) :
  0 <= i -> Z.testbit (not32 x) i = xorb (Z.testbit x i) (i <? 32).
Proof.
  intros Hi. unfold not32. rewrite Z.lxor_spec. f_equal.
  change (2 ^ 32 - 1) with (Z.ones 32).
  apply Z.testbit_ones_nonneg; lia.
Qed.

Lemma land_not32_bitmask (w n : Z) :
  Z.land (Z.land w (not32 (signal_bitmask NSIG n))) (signal_bitmask NSIG n) = 0.
Proof.
  apply Z.bits_inj'. intros i Hi.
  rewrite !Z.land_spec, not32_testbit, Z.bits_0 by assumption.
  destruct (Z.ltb_spec i 32) as [Hlt|Hge].
  - destruct (Z.testbit (signal_bitmask NSIG n) i), (Z.testbit w i); reflexivity.
  - rewrite signal_bitmask_high_bits by assumption.
    apply andb_false_r.
Qed.

Lemma load_store_same (e : SIG_FLAGS_ENM.t) (v : Z) (fl : sig_flags_t) :
  load e (store e v fl) = v.
Proof. destruct e; reflexivity. Qed.

(** What [pop_signal] hands back for a legal signal is a test of the whole
    category word, not of the bit of the signal. *)
Lemma pop_signal_returns_word_test (n : Z) (fl : sig_flags_t) :
  illegal NSIG n = false ->
  fst (pop_signal NSIG n fl) = to_bool (load (flagenm_of n) fl).
Proof. intros Hn. unfold pop_signal. rewrite Hn. reflexivity. Qed.

(** The bit of the signal is cleared all the same. *)
Lemma test_signal_after_pop (n : Z) (fl : sig_flags_t) :
  test_signal NSIG n (snd (pop_signal NSIG n fl)) = false.
Proof.
  unfold test_signal, pop_signal.
  destruct (illegal NSIG n) eqn:Hn; [reflexivity|].
  simpl. rewrite load_store_same, land_not32_bitmask. reflexivity.
Qed.

(** C2. A delivery of signal [k] sets bit [k - 1] of the OS word when
    [1 <= k <= 31] and bit [k - 32] of the RT word when [32 <= k <= 63],
    and nothing else; when [k <= 0] or [k] is at or above [NSIG] the
    delivery sets no bit, and [test_signal k] and [pop_signal k] return
    false and change nothing. [NSIG] lies above the real-time range, as on
    Linux. *)
Theorem delivery_sets_one_bit (HNSIG : 64 <= NSIG) (k : Z) (fl : sig_flags_t) :
  (1 <= k <= 31 ->
     (forall i, Z.testbit (flag_OS (handler_callback NSIG k fl)) i
                = Z.testbit (flag_OS fl) i || (i =? k - 1))
     /\ flag_RT (handler_callback NSIG k fl) = flag_RT fl
     /\ flag_reserved (handler_callback NSIG k fl) = flag_reserved fl)
  /\ (32 <= k <= 63 ->
     (forall i, Z.testbit (flag_RT (handler_callback NSIG k fl)) i
                = Z.testbit (flag_RT fl) i || (i =? k - 32))
     /\ flag_OS (handler_callback NSIG k fl) = flag_OS fl
     /\ flag_reserved (handler_callback NSIG k fl) = flag_reserved fl)
  /\ (k <= 0 \/ NSIG <= k ->
     handler_callback NSIG k fl = fl
     /\ test_signal NSIG k fl = false
     /\ pop_signal NSIG k fl = (false, fl)).
Proof.
  split; [|split].
  - intros Hk.
    assert (Hm : signal_bitmask NSIG k = 2 ^ (k - 1)).
    { unfold signal_bitmask, illegal.
      replace (k <=? 0) with false by lia.
      replace (k >=? NSIG) with false by lia.
      replace (k <? 32) with true by lia.
      simpl. apply shl1_small. lia. }
    unfold handler_callback, fetch_or.
    replace (k <? 32) with true by lia.
    rewrite Hm. simpl. repeat split.
    intros i. apply testbit_lor_pow2. lia.
  - intros Hk.
    assert (Hm : signal_bitmask NSIG k = 2 ^ (k - 32)).
    { unfold signal_bitmask, illegal.
      replace (k <=? 0) with false by lia.
      replace (k >=? NSIG) with false by lia.
      replace (k <? 32) with false by lia.
      replace (k <? 64) with true by lia.
      simpl. apply shl1_small. lia. }
    unfold handler_callback, fetch_or.
    replace (k <? 32) with false by lia.
    replace (k <? 64) with true by lia.
    rewrite Hm. simpl. repeat split.
    intros i. apply testbit_lor_pow2. lia.
  - intros Hk.
    assert (Hill : illegal NSIG k = true).
    { unfold illegal. apply orb_true_iff. lia. }
    split; [apply handler_callback_illegal; assumption|].
    unfold test_signal, pop_signal. rewrite Hill. split; reflexivity.
Qed.

Lemma deliver_all_load (sigs : list Z) (e : SIG_FLAGS_ENM.t) (fl : sig_flags_t) :
  load e (deliver_all NSIG sigs fl)
  = Z.lor (load e fl) (union_of_bits NSIG e sigs).
Proof.
  revert fl. induction sigs as [|k sigs IH]; intros fl.
  - simpl. rewrite Z.lor_0_r. reflexivity.
  - change (deliver_all NSIG (k :: sigs) fl)
      with (deliver_all NSIG sigs (handler_callback NSIG k fl)).
    rewrite IH, handler_callback_load.
    unfold union_of_bits. cbn [List.filter].
    destruct (SIG_FLAGS_ENM.eqb (flagenm_of k) e).
    + cbn [map fold_right]. rewrite Z.lor_assoc. reflexivity.
    + reflexivity.
Qed.

Lemma to_bool_true_iff_bit (w : Z) :
  to_bool w = true <-> exists i, Z.testbit w i = true.
Proof.
  unfold to_bool. rewrite negb_true_iff, Z.eqb_neq. split.
  - intros Hw. destruct (Z.lt_trichotomy w 0) as [Hneg|[Hz|Hpos]].
    + exists (Z.succ (Z.log2 (Z.abs w))). apply Z.bits_iff_neg'. assumption.
    + contradiction.
    + exists (Z.log2 w). apply Z.bit_log2. assumption.
  - intros [i Hi] ->. rewrite Z.bits_0 in Hi. discriminate.
Qed.

(** C7. Start from the words as a [pop_all_signals] leaves them and let
    the signals [sigs] be delivered. The next [pop_all_signals] hands out,
    word by word, the union of the bits of the delivered signals, which is
    what the three words hold; its result is true exactly when some bit of
    some word is set; and right after it [test_all_signals] reports three
    zero words and returns false. *)
Theorem pop_all_signals_round_trip (sigs : list Z) (fl0 : sig_flags_t) :
  let fl := deliver_all NSIG sigs (snd (pop_all_signals fl0)) in
  let ret := fst (fst (pop_all_signals fl)) in
  let out := snd (fst (pop_all_signals fl)) in
  let fl' := snd (pop_all_signals fl) in
  out = mkMask (union_of_bits NSIG OS_sigs sigs)
               (union_of_bits NSIG RT_sigs sigs)
               (union_of_bits NSIG reserved sigs)
  /\ out = mkMask (load OS_sigs fl) (load RT_sigs fl) (load reserved fl)
  /\ (ret = true <-> exists e i, Z.testbit (load e fl) i = true)
  /\ test_all_signals fl' = (false, mkMask 0 0 0).
Proof.
  intros fl ret out fl'.
  assert (Hout : out = mkMask (load OS_sigs fl) (load RT_sigs fl)
                              (load reserved fl)) by reflexivity.
  split; [|split; [exact Hout|split]].
  - rewrite Hout. unfold fl. rewrite !deliver_all_load. reflexivity.
  - change ret with (to_bool (load OS_sigs fl) || to_bool (load RT_sigs fl)
                     || to_bool (load reserved fl)).
    rewrite !orb_true_iff, !to_bool_true_iff_bit. split.
    + intros [[[i Hi]|[i Hi]]|[i Hi]]; eauto.
    + intros [[] [i Hi]]; eauto.
  - reflexivity.
Qed.

End SignalHandlerFacts.

(** C2 at the Linux value [NSIG = 65]: SIGINT (2) sets bit 1 of the OS
    word, signal 40 sets bit 8 of the RT word, and 0 and 65 set nothing. *)
Lemma delivery_sets_one_bit_witness :
  64 <= 65
  /\ Z.testbit (SignalHandler.flag_OS
        (SignalHandler.handler_callback 65 2 SignalHandler.flags_zero)) 1 = true
  /\ Z.testbit (SignalHandler.flag_RT
        (SignalHandler.handler_callback 65 40 SignalHandler.flags_zero)) 8 = true
  /\ SignalHandler.handler_callback 65 0 SignalHandler.flags_zero
     = SignalHandler.flags_zero
  /\ SignalHandler.pop_signal 65 65 SignalHandler.flags_zero
     = (false, SignalHandler.flags_zero).
Proof.
  assert (H : 64 <= 65) by lia.
  split; [exact H|].
  split; [|split; [|split]].
  - destruct (delivery_sets_one_bit 65 H 2 SignalHandler.flags_zero)
      as [[Hbit _] _]; [lia|].
    rewrite Hbit. reflexivity.
  - destruct (delivery_sets_one_bit 65 H 40 SignalHandler.flags_zero)
      as [_ [[Hbit _] _]]; [lia|].
    rewrite Hbit. reflexivity.
  - destruct (delivery_sets_one_bit 65 H 0 SignalHandler.flags_zero)
      as [_ [_ [Hsame _]]]; [lia|].
    exact Hsame.
  - destruct (delivery_sets_one_bit 65 H 65 SignalHandler.flags_zero)
      as [_ [_ [_ [_ Hpop]]]]; [lia|].
    exact Hpop.
Defined.

(** ** Construction and destruction *)

Section SignalHandlerLifecycle.

Import SignalHandler.

Variables NSIG SA_SIGINFO : Z.

Lemma first_illegal_with_flags (flags : Z) (signal_list : list Z) :
  first_illegal_pair NSIG (with_flags flags signal_list)
  = first_illegal NSIG signal_list.
Proof.
  induction signal_list as [|signal rest IH]; simpl; [reflexivity|].
  rewrite IH. reflexivity.
Qed.

Lemma add_all_with_flags (flags : Z) (signal_list : list Z) :
  add_all_pairs (with_flags flags signal_list) = add_all signal_list.
Proof.
  unfold add_all_pairs, add_all. generalize (∅ : gset Z).
  induction signal_list as [|signal rest IH]; intros acc; simpl;
    [reflexivity|apply IH].
Qed.

Lemma install_with_flags (o : oracle) (flags : Z) (throw_sig_error : bool)
    (signal_list : list Z) (sigmask : gset Z)
    (old_handlers : gmap Z sigaction_t) (p : process) :
  install_pairs SA_SIGINFO o throw_sig_error (with_flags flags signal_list)
                sigmask old_handlers p
  = install SA_SIGINFO o flags throw_sig_error signal_list sigmask
            old_handlers p.
Proof.
  revert old_handlers p.
  induction signal_list as [|signal rest IH]; intros old_handlers p; simpl;
    [reflexivity|].
  destruct (sigaction o signal _ p) as [[rc old_sa_struct] p'].
  destruct ((rc =? -1) && throw_sig_error); [reflexivity|apply IH].
Qed.

Lemma process_flag_round_trip (p : process) :
  instance_exists_ p = false ->
  set_instance_exists false (set_instance_exists true p) = p.
Proof. destruct p as [e fl b d]. simpl. intros ->. reflexivity. Qed.

Lemma first_illegal_none (signal_list : list Z) :
  all_legal NSIG signal_list = true -> first_illegal NSIG signal_list = None.
Proof.
  induction signal_list as [|signal rest IH]; simpl; [reflexivity|].
  intros [Hs Hrest]%andb_true_iff.
  apply negb_true_iff in Hs. rewrite Hs. auto.
Qed.

Lemma first_illegal_some (signal_list : list Z) :
  all_legal NSIG signal_list = false ->
  exists signal,
    first_illegal NSIG signal_list = Some signal
    /\ In signal signal_list /\ illegal NSIG signal = true.
Proof.
  induction signal_list as [|signal rest IH]; simpl; [discriminate|].
  destruct (illegal NSIG signal) eqn:Hs; simpl.
  - intros _. exists signal. auto.
  - intros Hrest. destruct (IH Hrest) as (s & Hf & Hin & Hill).
    exists s. auto.
Qed.

Lemma first_illegal_pair_fst (initialiser_list : list (Z * Z)) :
  first_illegal_pair NSIG initialiser_list
  = first_illegal NSIG (map fst initialiser_list).
Proof.
  induction initialiser_list as [|[signal flags] rest IH]; simpl;
    [reflexivity|].
  rewrite IH. reflexivity.
Qed.

(** One round of an installation loop: split on whether [sigaction]
    fails on the signal at hand. *)
Ltac install_round o signal :=
  unfold sigaction; destruct (sigaction_fails o signal) eqn:?; simpl.

Lemma install_flag (o : oracle) (flags : Z) (throw_sig_error : bool)
    (signal_list : list Z) (sigmask : gset Z)
    (old_handlers new_handlers : gmap Z sigaction_t) (p p' : process) :
  install SA_SIGINFO o flags throw_sig_error signal_list sigmask old_handlers p
  = (p', Ok new_handlers) ->
  instance_exists_ p' = instance_exists_ p.
Proof.
  revert old_handlers p.
  induction signal_list as [|signal rest IH]; intros old_handlers p; simpl.
  - intros [= -> _]. reflexivity.
  - install_round o signal.
    + destruct throw_sig_error; [discriminate|].
      intros H. apply IH in H. exact H.
    + intros H. apply IH in H. exact H.
Qed.

Lemma install_pairs_flag (o : oracle) (throw_sig_error : bool)
    (initialiser_list : list (Z * Z)) (sigmask : gset Z)
    (old_handlers new_handlers : gmap Z sigaction_t) (p p' : process) :
  install_pairs SA_SIGINFO o throw_sig_error initialiser_list sigmask
                old_handlers p
  = (p', Ok new_handlers) ->
  instance_exists_ p' = instance_exists_ p.
Proof.
  revert old_handlers p.
  induction initialiser_list as [|[signal flags] rest IH];
    intros old_handlers p; simpl.
  - intros [= -> _]. reflexivity.
  - install_round o signal.
    + destruct throw_sig_error; [discriminate|].
      intros H. apply IH in H. exact H.
    + intros H. apply IH in H. exact H.
Qed.

Lemma install_pairs_ok (o : oracle) (throw_sig_error : bool)
    (initialiser_list : list (Z * Z)) (sigmask : gset Z)
    (old_handlers : gmap Z sigaction_t) (p : process) :
  negb throw_sig_error
  || forallb (fun signal => negb (sigaction_fails o signal))
             (map fst initialiser_list) = true ->
  exists p' new_handlers,
    install_pairs SA_SIGINFO o throw_sig_error initialiser_list sigmask
                  old_handlers p
    = (p', Ok new_handlers).
Proof.
  revert old_handlers p.
  induction initialiser_list as [|[signal flags] rest IH];
    intros old_handlers p Hok; simpl.
  - eauto.
  - assert (Hrest : negb throw_sig_error
              || forallb (fun signal => negb (sigaction_fails o signal))
                         (map fst rest) = true).
    { destruct throw_sig_error; [|reflexivity].
      simpl in *. apply andb_true_iff in Hok. tauto. }
    install_round o signal.
    + destruct throw_sig_error; simpl in *.
      * rewrite Heqb in Hok. discriminate.
      * apply IH. exact Hrest.
    + apply IH. exact Hrest.
Qed.

Lemma with_flags_fst (flags : Z) (signal_list : list Z) :
  map fst (with_flags flags signal_list) = signal_list.
Proof.
  unfold with_flags. rewrite map_map. simpl. apply map_id.
Qed.

(** With legal signals, no live instance and system calls that answer
    well, the pair-list constructor returns an instance. *)
Lemma construct_pairs_succeeds (o : oracle) (initialiser_list : list (Z * Z))
    (throw_sig_error : bool) (p : process) :
  instance_exists_ p = false ->
  all_legal NSIG (map fst initialiser_list) = true ->
  os_cooperates o throw_sig_error (map fst initialiser_list) = true ->
  exists p' self,
    construct_pairs NSIG SA_SIGINFO o initialiser_list throw_sig_error p
    = (p', Ok self).
Proof.
  intros Hfree Hlegal Hos. unfold construct_pairs.
  rewrite Hfree, first_illegal_pair_fst, (first_illegal_none _ Hlegal).
  unfold os_cooperates in Hos.
  apply andb_true_iff in Hos as [[Hmask Hdisp]%andb_true_iff Hsig].
  unfold pthread_sigmask at 1. rewrite Hmask. simpl.
  match goal with
  | |- context [install_pairs _ _ _ _ ?m ?h ?q] =>
      destruct (install_pairs_ok o throw_sig_error initialiser_list m h q Hsig)
        as (p' & new_handlers & ->)
  end.
  unfold start_dispatcher. rewrite Hdisp. eauto.
Qed.

(** The same for the list constructor. *)
Lemma construct_succeeds (o : oracle) (signal_list : list Z) (flags : Z)
    (throw_sig_error : bool) (p : process) :
  instance_exists_ p = false ->
  all_legal NSIG signal_list = true ->
  os_cooperates o throw_sig_error signal_list = true ->
  exists p' self,
    construct NSIG SA_SIGINFO o signal_list flags throw_sig_error p
    = (p', Ok self).
Proof.
  intros Hfree Hlegal Hos.
  unfold construct. rewrite Hfree, (first_illegal_none _ Hlegal).
  unfold os_cooperates in Hos.
  apply andb_true_iff in Hos as [[Hmask Hdisp]%andb_true_iff Hsig].
  unfold pthread_sigmask at 1. rewrite Hmask. simpl.
  rewrite <- install_with_flags.
  rewrite <- (with_flags_fst flags signal_list) in Hsig.
  match goal with
  | |- context [install_pairs _ _ _ ?l ?m ?h ?q] =>
      destruct (install_pairs_ok o throw_sig_error l m h q Hsig)
        as (p' & new_handlers & ->)
  end.
  unfold start_dispatcher. rewrite Hdisp. eauto.
Qed.

Lemma construct_ok_flag (o : oracle) (signal_list : list Z) (flags : Z)
    (throw_sig_error : bool) (p p' : process) (self : t) :
  construct NSIG SA_SIGINFO o signal_list flags throw_sig_error p
  = (p', Ok self) ->
  instance_exists_ p = false /\ instance_exists_ p' = true.
Proof.
  unfold construct.
  destruct (instance_exists_ p) eqn:Hflag; [discriminate|].
  destruct (first_illegal NSIG signal_list); [discriminate|].
  destruct (pthread_sigmask o SIG_BLOCK _ _) as [errc q] eqn:Hmask.
  destruct (negb (errc =? 0)); [discriminate|].
  destruct (install _ _ _ _ _ _ _ q) as [q' [new_handlers|e]] eqn:Hinst;
    [|discriminate].
  apply install_flag in Hinst.
  unfold start_dispatcher.
  destruct (dispatcher_errc o =? 0); [|discriminate].
  intros [= <- _]. split; [reflexivity|].
  simpl. rewrite Hinst.
  unfold pthread_sigmask in Hmask.
  destruct (sigmask_errc o =? 0); injection Hmask as _ <-; reflexivity.
Qed.

Lemma construct_pairs_ok_flag (o : oracle) (initialiser_list : list (Z * Z))
    (throw_sig_error : bool) (p p' : process) (self : t) :
  construct_pairs NSIG SA_SIGINFO o initialiser_list throw_sig_error p
  = (p', Ok self) ->
  instance_exists_ p = false /\ instance_exists_ p' = true.
Proof.
  unfold construct_pairs.
  destruct (instance_exists_ p) eqn:Hflag; [discriminate|].
  destruct (first_illegal_pair NSIG initialiser_list); [discriminate|].
  destruct (pthread_sigmask o SIG_BLOCK _ _) as [errc q] eqn:Hmask.
  destruct (negb (errc =? 0)); [discriminate|].
  destruct (install_pairs _ _ _ _ _ _ q) as [q' [new_handlers|e]] eqn:Hinst;
    [|discriminate].
  apply install_pairs_flag in Hinst.
  unfold start_dispatcher.
  destruct (dispatcher_errc o =? 0); [|discriminate].
  intros [= <- _]. split; [reflexivity|].
  simpl. rewrite Hinst.
  unfold pthread_sigmask in Hmask.
  destruct (sigmask_errc o =? 0); injection Hmask as _ <-; reflexivity.
Qed.

(** C5. A construction that returns an instance found
    [instance_exists_] clear and leaves it set, so no second instance can
    be made while the first lives: while the flag is set, a construction
    in either form throws
    [logic_error] and changes nothing of the process, so the live
    instance keeps its state. The destructor clears the flag, and a
    construction after it, with legal signals and system calls that
    answer well, returns an instance. *)
Theorem singleton_instance (p : process) :
  (forall o signal_list flags throw_sig_error p' self,
      construct NSIG SA_SIGINFO o signal_list flags throw_sig_error p
      = (p', Ok self) ->
      instance_exists_ p = false /\ instance_exists_ p' = true)
  /\ (forall o initialiser_list throw_sig_error p' self,
      construct_pairs NSIG SA_SIGINFO o initialiser_list throw_sig_error p
      = (p', Ok self) ->
      instance_exists_ p = false /\ instance_exists_ p' = true)
  /\ (instance_exists_ p = true ->
      (forall o signal_list flags throw_sig_error,
          construct NSIG SA_SIGINFO o signal_list flags throw_sig_error p
          = (p, Throw logic_error))
      /\ (forall o initialiser_list throw_sig_error,
          construct_pairs NSIG SA_SIGINFO o initialiser_list throw_sig_error p
          = (p, Throw logic_error)))
  /\ (forall od self,
      instance_exists_ (destruct_ od self p) = false
      /\ (forall o signal_list flags throw_sig_error,
          all_legal NSIG signal_list = true ->
          os_cooperates o throw_sig_error signal_list = true ->
          exists p' self',
            construct NSIG SA_SIGINFO o signal_list flags throw_sig_error
                      (destruct_ od self p)
            = (p', Ok self'))
      /\ (forall o initialiser_list throw_sig_error,
          all_legal NSIG (map fst initialiser_list) = true ->
          os_cooperates o throw_sig_error (map fst initialiser_list) = true ->
          exists p' self',
            construct_pairs NSIG SA_SIGINFO o initialiser_list throw_sig_error
                            (destruct_ od self p)
            = (p', Ok self'))).
Proof.
  split; [|split; [|split]].
  - intros *. apply construct_ok_flag.
  - intros *. apply construct_pairs_ok_flag.
  - intros Hlive. split; intros *.
    + unfold construct. rewrite Hlive. reflexivity.
    + unfold construct_pairs. rewrite Hlive. reflexivity.
  - intros od self.
    assert (Hfree : instance_exists_ (destruct_ od self p) = false)
      by reflexivity.
    split; [exact Hfree|]. split; intros *.
    + apply construct_succeeds. exact Hfree.
    + apply construct_pairs_succeeds. exact Hfree.
Qed.

(** C6. With no instance live, a construction whose signal list holds a
    signal outside the legal range throws [invalid_argument] for the first
    such signal, from the list of signals and from any list of pairs over
    them, and the process is as before the call: the mask and the
    dispositions are untouched and the flag is clear again. A construction
    after it, with legal signals and system calls that answer well,
    returns an instance. *)
Theorem illegal_signal_rolls_back (o : oracle) (signal_list : list Z)
    (flags : Z) (throw_sig_error : bool) (p : process) :
  instance_exists_ p = false ->
  all_legal NSIG signal_list = false ->
  exists signal,
    In signal signal_list
    /\ illegal NSIG signal = true
    /\ construct NSIG SA_SIGINFO o signal_list flags throw_sig_error p
       = (p, Throw (invalid_argument signal))
    /\ (forall initialiser_list,
          map fst initialiser_list = signal_list ->
          construct_pairs NSIG SA_SIGINFO o initialiser_list throw_sig_error p
          = (p, Throw (invalid_argument signal)))
    /\ (forall o' signal_list' flags' throw_sig_error',
          all_legal NSIG signal_list' = true ->
          os_cooperates o' throw_sig_error' signal_list' = true ->
          exists p' self,
            construct NSIG SA_SIGINFO o' signal_list' flags' throw_sig_error'
              (fst (construct NSIG SA_SIGINFO o signal_list flags
                              throw_sig_error p))
            = (p', Ok self)).
Proof.
  intros Hfree Hbad.
  destruct (first_illegal_some _ Hbad) as (signal & Hfirst & Hin & Hill).
  assert (Hlist : construct NSIG SA_SIGINFO o signal_list flags
                            throw_sig_error p
                  = (p, Throw (invalid_argument signal))).
  { unfold construct. rewrite Hfree, Hfirst.
    rewrite process_flag_round_trip by exact Hfree. reflexivity. }
  exists signal. repeat split; try assumption.
  - intros initialiser_list Hfst.
    unfold construct_pairs.
    rewrite Hfree, first_illegal_pair_fst, Hfst, Hfirst.
    rewrite process_flag_round_trip by exact Hfree. reflexivity.
  - intros *. rewrite Hlist. simpl.
    apply construct_succeeds. exact Hfree.
Qed.

(** C10. The constructor taking the signals [s1 .. sn], one [flags] and
    the failure policy, and the constructor taking the pairs
    [(s1, flags) .. (sn, flags)] and the same policy, return the same
    outcome (the instance or the exception thrown) and leave the same
    process state, whatever the state before and however the system calls
    answer. *)
Theorem constructors_agree (o : oracle) (signal_list : list Z) (flags : Z)
    (throw_sig_error : bool) (p : process) :
  construct NSIG SA_SIGINFO o signal_list flags throw_sig_error p
  = construct_pairs NSIG SA_SIGINFO o (with_flags flags signal_list)
                    throw_sig_error p.
Proof.
  unfold construct, construct_pairs.
  rewrite first_illegal_with_flags, add_all_with_flags.
  destruct (instance_exists_ p); [reflexivity|].
  destruct (first_illegal NSIG signal_list); [reflexivity|].
  destruct (pthread_sigmask o SIG_BLOCK _ _) as [errc p'].
  destruct (negb (errc =? 0)); [reflexivity|].
  rewrite install_with_flags. reflexivity.
Qed.

End SignalHandlerLifecycle.

(** C5 on Linux: a handler for SIGINT and SIGTERM is constructed in a
    fresh process; a second construction throws [logic_error] and leaves
    the process as it is; after the destructor a construction returns an
    instance again. *)
Lemma singleton_instance_witness :
  exists p1 self,
    SignalHandler.construct 65 4 SignalHandler.linux_oracle [2; 15] 0 true
                            SignalHandler.fresh_process
    = (p1, Ok self)
    /\ SignalHandler.instance_exists_ p1 = true
    /\ SignalHandler.construct_pairs 65 4 SignalHandler.linux_oracle
                                     [(10, 0)] true p1
       = (p1, Throw logic_error)
    /\ exists p2 self2,
         SignalHandler.construct 65 4 SignalHandler.linux_oracle [10] 0 true
           (SignalHandler.destruct_ SignalHandler.linux_oracle self p1)
         = (p2, Ok self2).
Proof.
  destruct (construct_succeeds 65 4 SignalHandler.linux_oracle [2; 15] 0 true
              SignalHandler.fresh_process eq_refl eq_refl eq_refl)
    as (p1 & self & H1).
  exists p1, self. split; [exact H1|].
  destruct (singleton_instance 65 4 SignalHandler.fresh_process)
    as (Hok & _).
  destruct (Hok _ _ _ _ _ _ H1) as [_ Hlive].
  destruct (singleton_instance 65 4 p1) as (_ & _ & Hsecond & Hdtor).
  split; [exact Hlive|]. split.
  - apply (Hsecond Hlive).
  - destruct (Hdtor SignalHandler.linux_oracle self) as (_ & Hnew & _).
    apply Hnew; reflexivity.
Defined.

(** C6 on Linux: asking for SIGINT and for 70 throws [invalid_argument]
    for 70, and a construction for SIGINT alone then returns an
    instance. *)
Lemma illegal_signal_rolls_back_witness :
  SignalHandler.construct 65 4 SignalHandler.linux_oracle [2; 70] 0 true
                          SignalHandler.fresh_process
  = (SignalHandler.fresh_process, Throw (invalid_argument 70))
  /\ SignalHandler.construct_pairs 65 4 SignalHandler.linux_oracle
                                   [(2, 0); (70, 1)] true
                                   SignalHandler.fresh_process
     = (SignalHandler.fresh_process, Throw (invalid_argument 70))
  /\ exists p' self,
       SignalHandler.construct 65 4 SignalHandler.linux_oracle [2] 0 true
         (fst (SignalHandler.construct 65 4 SignalHandler.linux_oracle
                 [2; 70] 0 true SignalHandler.fresh_process))
       = (p', Ok self).
Proof.
  destruct (illegal_signal_rolls_back 65 4 SignalHandler.linux_oracle [2; 70]
              0 true SignalHandler.fresh_process eq_refl eq_refl)
    as (signal & Hin & Hill & Hlist & Hpairs & Hnext).
  assert (Hsig : signal = 70).
  { destruct Hin as [<-|[<-|[]]]; [discriminate Hill|reflexivity]. }
  subst signal.
  split; [exact Hlist|]. split.
  - apply Hpairs. reflexivity.
  - apply Hnext; reflexivity.
Defined.

(** C1, on Linux ([NSIG = 65]). After one delivery of SIGINT (2), SIGTERM
    (15) is not raised, yet [pop_signal 15] returns true: the value it
    converts is the OS word as it was, which holds the bit of SIGINT. After
    deliveries of both, [pop_signal 15] returns true on the first call and
    true again on the second, with no delivery in between. *)
Theorem pop_signal_answers_for_other_signal :
  let fl := SignalHandler.handler_callback 65 2 SignalHandler.flags_zero in
  let fl2 := SignalHandler.deliver_all 65 [2; 15] SignalHandler.flags_zero in
  SignalHandler.test_signal 65 15 fl = false
  /\ fst (SignalHandler.pop_signal 65 15 fl) = true
  /\ fst (SignalHandler.pop_signal 65 15 fl2) = true
  /\ fst (SignalHandler.pop_signal 65 15
            (snd (SignalHandler.pop_signal 65 15 fl2))) = true.
Proof. vm_compute. repeat split. Qed.

(** * Properties of ThreadManager *)

Section ThreadManagerFacts.

Import ThreadManager.

Lemma wrap32_idem (z : Z) : wrap32 (wrap32 z) = wrap32 z.
Proof. unfold wrap32. apply Z.mod_mod. lia. Qed.

Lemma wrap32_add_l (a b : Z) : wrap32 (wrap32 a + b) = wrap32 (a + b).
Proof. unfold wrap32. apply Zplus_mod_idemp_l. Qed.

Lemma wrap32_sub_l (a b : Z) : wrap32 (wrap32 a - b) = wrap32 (a - b).
Proof. unfold wrap32. apply Zminus_mod_idemp_l. Qed.

Lemma wrap32_le (n : Z) : 0 <= n -> 0 <= wrap32 n <= n.
Proof.
  intros Hn. unfold wrap32. split.
  - apply Z.mod_pos_bound. lia.
  - apply Z.mod_le; lia.
Qed.

Lemma wrap32_small (n : Z) : 0 <= n < 2 ^ 32 -> wrap32 n = n.
Proof. apply Z.mod_small. Qed.

(** *** Counting the threads that have not returned *)

Lemma running_count_empty : running_count ∅ = 0%nat.
Proof. unfold running_count. apply map_fold_empty. Qed.

Lemma running_count_insert_fresh (m : gmap positive jthread) (id : positive)
    (th : jthread) :
  m !! id = None ->
  running_count (<[id := th]> m)
  = if returned th then running_count m else S (running_count m).
Proof.
  intros Hfresh. unfold running_count.
  rewrite map_fold_insert_L; [reflexivity| |exact Hfresh].
  intros j1 j2 z1 z2 y _ _ _.
  destruct (returned z1), (returned z2); reflexivity.
Qed.

Lemma running_count_lookup (m : gmap positive jthread) (id : positive)
    (th : jthread) :
  m !! id = Some th ->
  running_count m
  = (if returned th then running_count (delete id m)
     else S (running_count (delete id m)))
  /\ size m = S (size (delete id m)).
Proof.
  intros Hth. split.
  - rewrite <- (insert_delete_id m id th Hth) at 1.
    apply running_count_insert_fresh, lookup_delete_eq.
  - rewrite <- (insert_delete_id m id th Hth) at 1.
    apply map_size_insert_None, lookup_delete_eq.
Qed.

Lemma running_count_insert_present (m : gmap positive jthread) (id : positive)
    (th : jthread) :
  running_count (<[id := th]> m)
  = if returned th then running_count (delete id m)
    else S (running_count (delete id m)).
Proof.
  rewrite <- insert_delete_eq.
  apply running_count_insert_fresh, lookup_delete_eq.
Qed.

Lemma running_count_le_size (m : gmap positive jthread) :
  (running_count m <= size m)%nat.
Proof.
  induction m as [|id th m Hfresh IH] using map_ind.
  - rewrite running_count_empty. lia.
  - rewrite running_count_insert_fresh, map_size_insert_None by exact Hfresh.
    destruct (returned th); lia.
Qed.

(** A thread of the table that has not returned is counted, and one that
    has returned is not. *)
Lemma running_count_bounds (m : gmap positive jthread) (id : positive)
    (th : jthread) :
  m !! id = Some th ->
  if returned th then (running_count m < size m)%nat
  else (1 <= running_count m)%nat.
Proof.
  intros Hth. destruct (running_count_lookup m id th Hth) as [Hrc Hsz].
  pose proof (running_count_le_size (delete id m)) as Hle.
  destruct (returned th); lia.
Qed.

(** *** The invariant and the operations that keep it *)

Lemma registry_inv_alive_le_total (tm : t) :
  registry_inv tm -> 0 <= alive_threads tm <= total_threads tm.
Proof.
  unfold registry_inv, alive_threads, total_threads. intros ->.
  pose proof (running_count_le_size (threads_ tm)) as Hle.
  pose proof (wrap32_le (Z.of_nat (running_count (threads_ tm)))) as Hw.
  lia.
Qed.

Lemma registry_inv_counter_range (tm : t) :
  registry_inv tm -> wrap32 (thread_counter_ tm) = thread_counter_ tm.
Proof. unfold registry_inv. intros ->. apply wrap32_idem. Qed.

Lemma set_thread_counter_id (tm : t) :
  set_thread_counter (thread_counter_ tm) tm = tm.
Proof. destruct tm; reflexivity. Qed.

(** The loop of [join]: every thread that has not returned is waited for
    and decrements once. *)
Lemma join_loop (tm : t) :
  wrap32 (thread_counter_ tm) = thread_counter_ tm ->
  map_fold (fun _ th tm => join_thread th tm) tm (threads_ tm)
  = set_thread_counter
      (wrap32 (thread_counter_ tm - Z.of_nat (running_count (threads_ tm)))) tm.
Proof.
  intros Hrange.
  apply (map_fold_weak_ind
           (fun r m =>
              r = set_thread_counter
                    (wrap32 (thread_counter_ tm - Z.of_nat (running_count m)))
                    tm)).
  - rewrite running_count_empty, Z.sub_0_r, Hrange.
    symmetry. apply set_thread_counter_id.
  - intros id th m r Hfresh ->.
    rewrite running_count_insert_fresh by exact Hfresh.
    unfold join_thread. destruct (returned th); [reflexivity|].
    unfold fetch_sub, set_thread_counter. cbn [thread_counter_ global_stop_source_ threads_ bucket_count_].
    rewrite wrap32_sub_l. do 2 f_equal. lia.
Qed.

Lemma spawn_started_inv (id : positive) (tm : t) :
  registry_inv tm -> threads_ tm !! id = None ->
  registry_inv (fst (spawn_thread (started id) tm)).
Proof.
  unfold registry_inv. intros Hinv Hfresh. simpl.
  rewrite running_count_insert_fresh by exact Hfresh. simpl.
  rewrite Hinv, wrap32_add_l. f_equal. lia.
Qed.

Lemma spawn_start_throws_same (e : exn) (tm : t) :
  wrap32 (thread_counter_ tm) = thread_counter_ tm ->
  fst (spawn_thread (start_throws e) tm) = tm.
Proof.
  intros Hrange. destruct tm as [c g m b]. simpl in *.
  unfold fetch_sub, fetch_add, set_thread_counter. simpl.
  rewrite wrap32_sub_l. replace (c + 1 - 1) with c by lia.
  rewrite Hrange. reflexivity.
Qed.

Lemma worker_returns_inv (id : positive) (tm : t) :
  registry_inv tm -> registry_inv (worker_returns id tm).
Proof.
  unfold registry_inv, worker_returns. intros Hinv.
  destruct (threads_ tm !! id) as [th|] eqn:Hth; [|exact Hinv].
  destruct (returned th) eqn:Hret; [exact Hinv|].
  simpl. rewrite running_count_insert_present. simpl.
  destruct (running_count_lookup _ _ _ Hth) as [Hrc _].
  rewrite Hret in Hrc.
  rewrite Hinv, wrap32_sub_l, Hrc. f_equal. lia.
Qed.

Lemma join_counter (tm : t) :
  registry_inv tm -> thread_counter_ (join tm) = 0 /\ threads_ (join tm) = ∅.
Proof.
  intros Hinv. unfold join.
  rewrite join_loop by (apply registry_inv_counter_range; exact Hinv).
  simpl. split; [|reflexivity].
  rewrite Hinv, wrap32_sub_l, Z.sub_diag. reflexivity.
Qed.

Lemma join_inv (tm : t) : registry_inv tm -> registry_inv (join tm).
Proof.
  intros Hinv. destruct (join_counter tm Hinv) as [Hc Hm].
  unfold registry_inv. rewrite Hc, Hm, running_count_empty. reflexivity.
Qed.

Lemma request_stop_inv (id : positive) (tm : t) :
  registry_inv tm -> registry_inv (fst (request_stop id tm)).
Proof.
  unfold registry_inv, request_stop. intros Hinv.
  destruct (threads_ tm !! id) as [th|] eqn:Hth; [|exact Hinv].
  simpl. rewrite running_count_insert_present. simpl.
  destruct (running_count_lookup _ _ _ Hth) as [Hrc _].
  rewrite Hinv, Hrc. reflexivity.
Qed.

(** Every operation keeps the invariant, a [spawn_thread] in which
    [threads_[tid]] throws apart. *)
Lemma apply_event_inv (ev : event) (tm : t) :
  registry_inv tm -> enabled ev tm = true -> insert_ok ev = true ->
  registry_inv (apply_event ev tm).
Proof.
  intros Hinv Hen Hok.
  destruct ev as [[errc|id|id]|id| |id| |limit]; cbn [apply_event].
  - rewrite spawn_start_throws_same; [exact Hinv|].
    apply registry_inv_counter_range. exact Hinv.
  - discriminate.
  - apply (spawn_started_inv id tm Hinv).
    simpl in Hen. apply bool_decide_eq_true in Hen. exact Hen.
  - apply worker_returns_inv. exact Hinv.
  - apply join_inv. exact Hinv.
  - apply request_stop_inv. exact Hinv.
  - exact Hinv.
  - exact Hinv.
Qed.

Lemma run_inv (evs : list event) (tm tm' : t) :
  registry_inv tm -> forallb insert_ok evs = true ->
  run evs tm = Some tm' -> registry_inv tm'.
Proof.
  revert tm. induction evs as [|ev evs IH]; intros tm Hinv Hok; simpl.
  - intros [= <-]. exact Hinv.
  - simpl in Hok. apply andb_true_iff in Hok as [Hev Hrest].
    destruct (enabled ev tm) eqn:Hen; [|discriminate].
    apply IH; [|exact Hrest].
    apply apply_event_inv; assumption.
Qed.

Lemma init_inv : registry_inv init.
Proof. reflexivity. Qed.

(** In the runs in which no [threads_[tid]] throws, the live-count never
    exceeds the size of the table; [join] leaves both at zero; and a
    [spawn_thread] that returns raises both by one, short of the 32-bit
    limit. *)
Lemma run_alive_le_total (evs : list event) (tm : t) :
  forallb insert_ok evs = true -> run evs init = Some tm ->
  alive_threads tm <= total_threads tm.
Proof.
  intros Hok Hrun.
  apply registry_inv_alive_le_total, (run_inv evs init tm init_inv Hok Hrun).
Qed.

Lemma join_leaves_zero (tm : t) :
  registry_inv tm ->
  alive_threads (join tm) = 0 /\ total_threads (join tm) = 0.
Proof.
  intros Hinv. destruct (join_counter tm Hinv) as [Hc Hm].
  unfold alive_threads, total_threads. rewrite Hc, Hm. split; reflexivity.
Qed.

Lemma spawn_started_counts (id : positive) (tm : t) :
  threads_ tm !! id = None ->
  0 <= thread_counter_ tm < 2 ^ 32 - 1 ->
  alive_threads (fst (spawn_thread (started id) tm)) = alive_threads tm + 1
  /\ total_threads (fst (spawn_thread (started id) tm)) = total_threads tm + 1
  /\ snd (spawn_thread (started id) tm) = Ok id.
Proof.
  intros Hfresh Hrange. unfold alive_threads, total_threads. simpl.
  rewrite map_size_insert_None by exact Hfresh.
  rewrite wrap32_small by lia. repeat split; lia.
Qed.

(** In a registry whose live-count does not exceed the size of its
    table, [all_running] is true exactly when [alive_threads] equals
    [total_threads] and [total_threads] is positive. And where the
    live-count is the number of threads that have not returned, in a table
    of fewer than [2^32] threads: when some thread of the table has
    returned and some other has not, [all_running] is false and
    [any_running] is true. *)
Theorem all_running_iff_alive_eq_total (tm : t) :
  (alive_threads tm <= total_threads tm ->
     (all_running tm = true
      <-> alive_threads tm = total_threads tm /\ total_threads tm > 0))
  /\ (registry_inv tm -> total_threads tm < 2 ^ 32 ->
      forall id1 th1 id2 th2,
        threads_ tm !! id1 = Some th1 -> returned th1 = true ->
        threads_ tm !! id2 = Some th2 -> returned th2 = false ->
        all_running tm = false /\ any_running tm = true).
Proof.
  unfold all_running, any_running, alive_threads, total_threads, registry_inv.
  split.
  - intros Hle. rewrite andb_true_iff, negb_true_iff, Z.eqb_neq, Z.geb_le.
    lia.
  - intros Hinv Hsize id1 th1 id2 th2 H1 Hret1 H2 Hret2.
    pose proof (running_count_bounds _ _ _ H1) as Hlt.
    pose proof (running_count_bounds _ _ _ H2) as Hge.
    rewrite Hret1 in Hlt. rewrite Hret2 in Hge.
    rewrite wrap32_small in Hinv by lia.
    split.
    + apply andb_false_iff. left. rewrite Z.geb_leb. apply Z.leb_gt. lia.
    + apply Z.gtb_lt. lia.
Qed.

Lemma lookup_none_throws (id : positive) (tm : t) :
  threads_ tm !! id = None ->
  request_stop id tm = (tm, Throw (invalid_argument (Z.pos id)))
  /\ stop_requested id tm = Throw (invalid_argument (Z.pos id)).
Proof.
  intros Hnone. unfold request_stop, stop_requested.
  rewrite Hnone. split; reflexivity.
Qed.

Lemma eqb_false_ne (id id' : positive) : Pos.eqb id id' = false -> id' <> id.
Proof. intros H%Pos.eqb_neq. congruence. Qed.

Lemma apply_event_lookup_none (ev : event) (id : positive) (tm : t) :
  threads_ tm !! id = None -> returns_id id ev = false ->
  threads_ (apply_event ev tm) !! id = None.
Proof.
  intros Hnone Hev.
  destruct ev as [[errc|id'|id']|id'| |id'| |limit]; cbn [apply_event].
  - exact Hnone.
  - exact Hnone.
  - simpl in *. rewrite lookup_insert_ne by (apply eqb_false_ne; exact Hev).
    exact Hnone.
  - unfold worker_returns.
    destruct (threads_ tm !! id') as [th|] eqn:Hth; [|exact Hnone].
    destruct (returned th); [exact Hnone|]. simpl.
    rewrite lookup_insert_ne by congruence. exact Hnone.
  - apply lookup_empty.
  - unfold request_stop.
    destruct (threads_ tm !! id') as [th|] eqn:Hth; [|exact Hnone].
    simpl. rewrite lookup_insert_ne by congruence. exact Hnone.
  - exact Hnone.
  - exact Hnone.
Qed.

Lemma run_lookup_none (evs : list event) (id : positive) (tm tm' : t) :
  threads_ tm !! id = None ->
  forallb (fun ev => negb (returns_id id ev)) evs = true ->
  run evs tm = Some tm' -> threads_ tm' !! id = None.
Proof.
  revert tm. induction evs as [|ev evs IH]; intros tm Hnone Hevs; simpl.
  - intros [= <-]. exact Hnone.
  - simpl in Hevs. apply andb_true_iff in Hevs as [Hev Hrest].
    destruct (enabled ev tm); [|discriminate].
    apply IH; [|exact Hrest].
    apply apply_event_lookup_none; [exact Hnone|].
    apply negb_true_iff. exact Hev.
Qed.

Lemma apply_event_unrequested (ev : event) (id : positive) (tm : t) :
  unrequested id tm -> enabled ev tm = true -> stops_or_reaps id ev = false ->
  unrequested id (apply_event ev tm).
Proof.
  unfold unrequested. intros (th & Hth & Hstop) Hen Hev.
  destruct ev as [[errc|id'|id']|id'| |id'| |limit]; cbn [apply_event].
  - eauto.
  - eauto.
  - simpl in Hen. apply bool_decide_eq_true in Hen.
    exists th. simpl. rewrite lookup_insert_ne by congruence. auto.
  - unfold worker_returns.
    destruct (threads_ tm !! id') as [th'|] eqn:Hth'; [|eauto].
    destruct (returned th'); [eauto|]. simpl.
    destruct (decide (id' = id)) as [->|Hne].
    + rewrite lookup_insert_eq. eexists. split; [reflexivity|].
      simpl. congruence.
    + rewrite lookup_insert_ne by exact Hne. eauto.
  - discriminate.
  - unfold request_stop.
    destruct (threads_ tm !! id') as [th'|] eqn:Hth'; [|eauto].
    simpl. rewrite lookup_insert_ne by (apply eqb_false_ne; exact Hev).
    eauto.
  - eauto.
  - eauto.
Qed.

Lemma run_unrequested (evs : list event) (id : positive) (tm tm' : t) :
  unrequested id tm ->
  forallb (fun ev => negb (stops_or_reaps id ev)) evs = true ->
  run evs tm = Some tm' -> unrequested id tm'.
Proof.
  revert tm. induction evs as [|ev evs IH]; intros tm Hun Hevs; simpl.
  - intros [= <-]. exact Hun.
  - simpl in Hevs. apply andb_true_iff in Hevs as [Hev Hrest].
    destruct (enabled ev tm) eqn:Hen; [|discriminate].
    apply IH; [|exact Hrest].
    apply apply_event_unrequested; [exact Hun|exact Hen|].
    apply negb_true_iff. exact Hev.
Qed.

Lemma request_stop_then_requested (id : positive) (tm : t) (th : jthread) :
  threads_ tm !! id = Some th ->
  snd (request_stop id tm) = Ok (negb (stop_state th))
  /\ stop_requested id (fst (request_stop id tm)) = Ok true.
Proof.
  intros Hth. unfold request_stop, stop_requested. rewrite Hth. simpl.
  rewrite lookup_insert_eq. split; reflexivity.
Qed.

(** C8. For a thread identity [id]:
    - after a run in which no [spawn_thread] returned [id], and after any
      [join], and whenever [id] is not in the table, [request_stop id] and
      [stop_requested id] throw [invalid_argument], and [request_stop]
      leaves the registry as it was;
    - from the [spawn_thread] that returned [id], through any run without
      [request_stop id] and without [join], [stop_requested id] is false;
      [request_stop id] then returns true, and right after it
      [stop_requested id] is true;
    - for any thread of the table, [stop_requested id] is true right
      after [request_stop id]. *)
Theorem stop_request_by_identity (id : positive) :
  (forall evs tm,
      run evs init = Some tm ->
      forallb (fun ev => negb (returns_id id ev)) evs = true ->
      request_stop id tm = (tm, Throw (invalid_argument (Z.pos id)))
      /\ stop_requested id tm = Throw (invalid_argument (Z.pos id)))
  /\ (forall tm,
      request_stop id (join tm) = (join tm, Throw (invalid_argument (Z.pos id)))
      /\ stop_requested id (join tm) = Throw (invalid_argument (Z.pos id)))
  /\ (forall tm,
      threads_ tm !! id = None ->
      request_stop id tm = (tm, Throw (invalid_argument (Z.pos id)))
      /\ stop_requested id tm = Throw (invalid_argument (Z.pos id)))
  /\ (forall tm evs tm',
      run evs (fst (spawn_thread (started id) tm)) = Some tm' ->
      forallb (fun ev => negb (stops_or_reaps id ev)) evs = true ->
      stop_requested id tm' = Ok false
      /\ snd (request_stop id tm') = Ok true
      /\ stop_requested id (fst (request_stop id tm')) = Ok true)
  /\ (forall tm th,
      threads_ tm !! id = Some th ->
      stop_requested id (fst (request_stop id tm)) = Ok true).
Proof.
  split; [|split; [|split; [|split]]].
  - intros evs tm Hrun Hevs. apply lookup_none_throws.
    apply (run_lookup_none evs id init tm); [apply lookup_empty|exact Hevs|exact Hrun].
  - intros tm. apply lookup_none_throws. apply lookup_empty.
  - intros tm. apply lookup_none_throws.
  - intros tm evs tm' Hrun Hevs.
    assert (Hun : unrequested id tm').
    { apply (run_unrequested evs id (fst (spawn_thread (started id) tm)) tm');
        [|exact Hevs|exact Hrun].
      eexists. simpl. rewrite lookup_insert_eq. split; reflexivity. }
    destruct Hun as (th & Hth & Hstop).
    destruct (request_stop_then_requested id tm' th Hth) as [Hret Hafter].
    split; [|split].
    + unfold stop_requested. rewrite Hth, Hstop. reflexivity.
    + rewrite Hret, Hstop. reflexivity.
    + exact Hafter.
  - intros tm th Hth. apply (request_stop_then_requested id tm th Hth).
Qed.

Lemma spawn_insert_throws_counter (id : positive) (tm : t) :
  thread_counter_ (fst (spawn_thread (insert_throws id) tm))
  = wrap32 (thread_counter_ tm - 1)
  /\ threads_ (fst (spawn_thread (insert_throws id) tm)) = threads_ tm.
Proof.
  simpl. split; [|reflexivity].
  rewrite wrap32_sub_l.
  replace (wrap32 (thread_counter_ tm + 1) - 1 - 1)
    with (wrap32 (thread_counter_ tm + 1) - 2) by lia.
  rewrite wrap32_sub_l. f_equal. lia.
Qed.

End ThreadManagerFacts.

(** On a registry of two threads, the first of which has returned:
    [all_running] is false and [any_running] is true; and on a registry of
    one running thread [all_running] is true. *)
Lemma all_running_iff_alive_eq_total_witness :
  exists tm,
    ThreadManager.run
      [ThreadManager.ev_spawn (ThreadManager.started 1);
       ThreadManager.ev_spawn (ThreadManager.started 2);
       ThreadManager.ev_worker_returns 1] ThreadManager.init
    = Some tm
    /\ ThreadManager.all_running tm = false
    /\ ThreadManager.any_running tm = true
    /\ (ThreadManager.all_running tm = true
        <-> ThreadManager.alive_threads tm = ThreadManager.total_threads tm
            /\ ThreadManager.total_threads tm > 0).
Proof.
  eexists. split; [reflexivity|].
  match goal with
  | |- ThreadManager.all_running ?tm = _ /\ _ =>
      destruct (all_running_iff_alive_eq_total tm) as [Hiff Hmixed]
  end.
  assert (Hinv : ThreadManager.registry_inv
                   (ThreadManager.worker_returns 1
                      (fst (ThreadManager.spawn_thread (ThreadManager.started 2)
                         (fst (ThreadManager.spawn_thread
                                 (ThreadManager.started 1)
                                 ThreadManager.init)))))).
  { apply worker_returns_inv, spawn_started_inv; [|reflexivity].
    apply spawn_started_inv; [apply init_inv|reflexivity]. }
  destruct (Hmixed Hinv ltac:(vm_compute; reflexivity)
              1%positive (ThreadManager.mkJthread false true)
              2%positive (ThreadManager.mkJthread false false)
              eq_refl eq_refl eq_refl eq_refl) as [Hall Hany].
  split; [exact Hall|]. split; [exact Hany|].
  apply Hiff. vm_compute. discriminate.
Defined.

(** C8 for thread 1: unknown to a registry that only ever spawned thread
    2; once spawned, [stop_requested 1] stays false while thread 2 is
    spawned and a global stop is requested, and is true after
    [request_stop 1]. *)
Lemma stop_request_by_identity_witness :
  (exists tm,
      ThreadManager.run [ThreadManager.ev_spawn (ThreadManager.started 2)]
                        ThreadManager.init
      = Some tm
      /\ ThreadManager.request_stop 1 tm = (tm, Throw (invalid_argument 1)))
  /\ (exists tm',
      ThreadManager.run
        [ThreadManager.ev_spawn (ThreadManager.started 2);
         ThreadManager.ev_request_stop_all]
        (fst (ThreadManager.spawn_thread (ThreadManager.started 1)
                                         ThreadManager.init))
      = Some tm'
      /\ ThreadManager.stop_requested 1 tm' = Ok false
      /\ ThreadManager.stop_requested 1
           (fst (ThreadManager.request_stop 1 tm')) = Ok true).
Proof.
  destruct (stop_request_by_identity 1)
    as (Hnever & _ & _ & Hspawned & _).
  split.
  - eexists. split; [reflexivity|].
    apply (Hnever [ThreadManager.ev_spawn (ThreadManager.started 2)]);
      reflexivity.
  - eexists. split; [reflexivity|].
    destruct (Hspawned ThreadManager.init
                [ThreadManager.ev_spawn (ThreadManager.started 2);
                 ThreadManager.ev_request_stop_all]
                _ eq_refl eq_refl) as (Hbefore & _ & Hafter).
    split; [exact Hbefore|exact Hafter].
Defined.

(** C4. In a registry with one running thread, a [spawn_thread] whose
    thread starts but whose entry cannot be made throws, and the
    live-count is not back at its value before the call: it was 1 and is
    0, so [any_running] and [all_running] turn false while the first thread
    still runs. *)
Theorem spawn_insert_failure_decrements_twice :
  let tm1 := fst (ThreadManager.spawn_thread (ThreadManager.started 1)
                                             ThreadManager.init) in
  let tm2 := fst (ThreadManager.spawn_thread (ThreadManager.insert_throws 2)
                                             tm1) in
  snd (ThreadManager.spawn_thread (ThreadManager.insert_throws 2) tm1)
  = Throw bad_alloc
  /\ ThreadManager.threads_ tm2 = ThreadManager.threads_ tm1
  /\ ThreadManager.alive_threads tm1 = 1
  /\ ThreadManager.alive_threads tm2 = 0
  /\ ThreadManager.any_running tm1 = true
  /\ ThreadManager.any_running tm2 = false
  /\ ThreadManager.all_running tm1 = true
  /\ ThreadManager.all_running tm2 = false.
Proof. repeat split. Qed.

(** C9. From the empty registry, one [spawn_thread] whose thread starts
    but whose entry cannot be made leaves [alive_threads] at [2^32 - 1]
    and [total_threads] at 0. *)
Theorem insert_failure_breaks_alive_le_total :
  exists tm,
    ThreadManager.run [ThreadManager.ev_spawn (ThreadManager.insert_throws 1)]
                      ThreadManager.init
    = Some tm
    /\ ThreadManager.alive_threads tm = 4294967295
    /\ ThreadManager.total_threads tm = 0
    /\ ~ ThreadManager.alive_threads tm <= ThreadManager.total_threads tm.
Proof.
  eexists. split; [reflexivity|].
  repeat split. vm_compute. intros H. apply H. reflexivity.
Qed.

(** * Further properties of the signal words *)

Section SignalWords.

Import SignalHandler SignalHandler.SIG_FLAGS_ENM.

Variable NSIG : Z.

(** Up to [NSIG = 96] every legal signal shifts by less than 32. *)
Hypothesis NSIG_le_96 : NSIG <= 96.

Lemma bit_index_range (n : Z) :
  illegal NSIG n = false -> 0 <= bit_index n < 32.
Proof.
  unfold illegal, bit_index. intros Hn. apply orb_false_iff in Hn.
  destruct (Z.ltb_spec n 32); [lia|]. destruct (Z.ltb_spec n 64); lia.
Qed.

Lemma signal_bitmask_legal (n : Z) :
  illegal NSIG n = false -> signal_bitmask NSIG n = 2 ^ bit_index n.
Proof.
  intros Hn. pose proof (bit_index_range n Hn) as Hr.
  unfold signal_bitmask, bit_index in *. rewrite Hn.
  destruct (n <? 32); [|destruct (n <? 64)]; apply shl1_small; exact Hr.
Qed.

Lemma land_pow2 (w s : Z) :
  0 <= s -> Z.land w (2 ^ s) = if Z.testbit w s then 2 ^ s else 0.
Proof.
  intros Hs. apply Z.bits_inj'. intros i Hi.
  rewrite Z.land_spec, Z.pow2_bits_eqb by exact Hs.
  destruct (Z.eqb_spec s i) as [->|Hne].
  - destruct (Z.testbit w i) eqn:Hw; simpl.
    + rewrite Z.pow2_bits_true by exact Hi. reflexivity.
    + rewrite Z.bits_0. reflexivity.
  - rewrite andb_false_r.
    destruct (Z.testbit w s).
    + rewrite Z.pow2_bits_false by exact Hne. reflexivity.
    + rewrite Z.bits_0. reflexivity.
Qed.

(** [test_signal] of a legal signal reads one bit of one word. *)
Lemma test_signal_testbit (n : Z) (fl : sig_flags_t) :
  illegal NSIG n = false ->
  test_signal NSIG n fl = Z.testbit (load (flagenm_of n) fl) (bit_index n).
Proof.
  intros Hn. pose proof (bit_index_range n Hn) as Hr.
  unfold test_signal. rewrite Hn, (signal_bitmask_legal n Hn).
  rewrite land_pow2 by lia. unfold to_bool.
  destruct (Z.testbit _ _); [|reflexivity].
  apply negb_true_iff, Z.eqb_neq.
  pose proof (Z.pow_pos_nonneg 2 (bit_index n)). lia.
Qed.

(** Two legal signals with the same word and the same bit are one. *)
Lemma same_word_same_bit (m n : Z) :
  illegal NSIG m = false -> illegal NSIG n = false ->
  flagenm_of m = flagenm_of n -> bit_index m = bit_index n -> m = n.
Proof.
  unfold illegal, flagenm_of, bit_index.
  intros Hm%orb_false_iff Hn%orb_false_iff.
  destruct (Z.ltb_spec m 32), (Z.ltb_spec n 32),
           (Z.ltb_spec m 64), (Z.ltb_spec n 64),
           (Z.geb_spec m 32), (Z.geb_spec n 32),
           (Z.geb_spec m 64), (Z.geb_spec n 64);
    simpl; try lia; try discriminate.
Qed.

Lemma enm_eqb_eq (a b : SIG_FLAGS_ENM.t) :
  SIG_FLAGS_ENM.eqb a b = true <-> a = b.
Proof. destruct a, b; simpl; split; congruence. Qed.

Lemma load_store (e e' : SIG_FLAGS_ENM.t) (v : Z) (fl : sig_flags_t) :
  load e (store e' v fl) = if SIG_FLAGS_ENM.eqb e' e then v else load e fl.
Proof. destruct e, e'; reflexivity. Qed.

Lemma legal_ne_illegal (m n : Z) :
  illegal NSIG m = true -> illegal NSIG n = false -> (m =? n) = false.
Proof. intros Hm Hn. apply Z.eqb_neq. intros ->. congruence. Qed.

(** X1. For a legal signal [n] and any delivered signal [m]:
    [test_signal n] is true after the delivery exactly when it was true
    before or [m] is [n]. So a delivery raises its own signal, a raised
    signal stays raised through later deliveries, and no delivery raises
    another signal. *)
Theorem test_signal_after_delivery (n m : Z) (fl : sig_flags_t) :
  illegal NSIG n = false ->
  test_signal NSIG n (handler_callback NSIG m fl)
  = test_signal NSIG n fl || (m =? n).
Proof.
  intros Hn. pose proof (bit_index_range n Hn) as Hr.
  rewrite !test_signal_testbit by exact Hn.
  rewrite handler_callback_load.
  destruct (SIG_FLAGS_ENM.eqb (flagenm_of m) (flagenm_of n)) eqn:Hcat.
  - rewrite Z.lor_spec. f_equal.
    destruct (illegal NSIG m) eqn:Hm.
    + unfold signal_bitmask. rewrite Hm, Z.bits_0.
      symmetry. apply legal_ne_illegal; assumption.
    + rewrite (signal_bitmask_legal m Hm).
      pose proof (bit_index_range m Hm) as Hrm.
      rewrite Z.pow2_bits_eqb by lia.
      apply enm_eqb_eq in Hcat.
      destruct (Z.eqb_spec (bit_index m) (bit_index n)) as [Hbit|Hbit].
      * symmetry. apply Z.eqb_eq.
        apply same_word_same_bit; assumption.
      * symmetry. apply Z.eqb_neq. intros ->. contradiction.
  - replace (m =? n) with false; [rewrite orb_false_r; reflexivity|].
    symmetry. apply Z.eqb_neq. intros ->.
    assert (Hrefl : SIG_FLAGS_ENM.eqb (flagenm_of n) (flagenm_of n) = true)
      by (apply enm_eqb_eq; reflexivity).
    congruence.
Qed.

(** X2. For a legal signal [n] and any popped signal [m]: [test_signal n]
    is true after [pop_signal m] exactly when it was true before and [m]
    is not [n]. So [pop_signal] clears its own signal and no other. *)
Theorem test_signal_after_pop_signal (n m : Z) (fl : sig_flags_t) :
  illegal NSIG n = false ->
  test_signal NSIG n (snd (pop_signal NSIG m fl))
  = test_signal NSIG n fl && negb (m =? n).
Proof.
  intros Hn. pose proof (bit_index_range n Hn) as Hr.
  unfold pop_signal. destruct (illegal NSIG m) eqn:Hm.
  - simpl. rewrite (legal_ne_illegal m n Hm Hn), andb_true_r. reflexivity.
  - pose proof (bit_index_range m Hm) as Hrm.
    simpl. rewrite !test_signal_testbit by exact Hn.
    rewrite load_store, (signal_bitmask_legal m Hm).
    destruct (SIG_FLAGS_ENM.eqb (flagenm_of m) (flagenm_of n)) eqn:Hcat.
    + apply enm_eqb_eq in Hcat.
      rewrite Z.land_spec, not32_testbit by lia.
      rewrite Z.pow2_bits_eqb by lia.
      replace (bit_index n <? 32) with true by lia.
      rewrite Hcat. f_equal.
      destruct (Z.eqb_spec (bit_index m) (bit_index n)) as [Hbit|Hbit]; simpl.
      * symmetry. apply negb_false_iff, Z.eqb_eq.
        apply same_word_same_bit; assumption.
      * symmetry. apply negb_true_iff, Z.eqb_neq. intros ->. contradiction.
    + replace (m =? n) with false; [rewrite andb_true_r; reflexivity|].
      symmetry. apply Z.eqb_neq. intros ->.
      assert (Hrefl : SIG_FLAGS_ENM.eqb (flagenm_of n) (flagenm_of n) = true)
        by (apply enm_eqb_eq; reflexivity).
      congruence.
Qed.

Lemma test_signal_deliver_all_from (n : Z) (sigs : list Z) (fl : sig_flags_t) :
  illegal NSIG n = false ->
  test_signal NSIG n (deliver_all NSIG sigs fl)
  = test_signal NSIG n fl || existsb (Z.eqb n) sigs.
Proof.
  intros Hn. revert fl. induction sigs as [|m sigs IH]; intros fl.
  - simpl. rewrite orb_false_r. reflexivity.
  - change (deliver_all NSIG (m :: sigs) fl)
      with (deliver_all NSIG sigs (handler_callback NSIG m fl)).
    rewrite IH, test_signal_after_delivery by exact Hn.
    simpl. rewrite (Z.eqb_sym m n), orb_assoc. reflexivity.
Qed.

(** X3. After the words were zero and the signals [sigs] were delivered,
    in any order and any number of times, [test_signal n] is true for a
    legal [n] exactly when [n] is among [sigs]; and for an illegal [n] it
    is false. *)
Theorem test_signal_after_deliveries (n : Z) (sigs : list Z) :
  test_signal NSIG n (deliver_all NSIG sigs flags_zero)
  = negb (illegal NSIG n) && existsb (Z.eqb n) sigs.
Proof.
  destruct (illegal NSIG n) eqn:Hn.
  - unfold test_signal. rewrite Hn. reflexivity.
  - rewrite test_signal_deliver_all_from by exact Hn.
    unfold test_signal. rewrite Hn.
    destruct (flagenm_of n); reflexivity.
Qed.

End SignalWords.

(** X1 on Linux: SIGTERM (15) is raised by its own delivery and not by a
    delivery of SIGINT (2). *)
Lemma test_signal_after_delivery_witness :
  SignalHandler.test_signal 65 15
    (SignalHandler.handler_callback 65 15 SignalHandler.flags_zero) = true
  /\ SignalHandler.test_signal 65 15
       (SignalHandler.handler_callback 65 2 SignalHandler.flags_zero) = false.
Proof.
  split.
  - rewrite (test_signal_after_delivery 65 ltac:(lia) 15 15
               SignalHandler.flags_zero eq_refl).
    reflexivity.
  - rewrite (test_signal_after_delivery 65 ltac:(lia) 15 2
               SignalHandler.flags_zero eq_refl).
    reflexivity.
Defined.

(** X2 on Linux: with SIGINT and SIGTERM raised, [pop_signal 2] leaves
    SIGTERM raised and SIGINT not. *)
Lemma test_signal_after_pop_signal_witness :
  let fl := SignalHandler.deliver_all 65 [2; 15] SignalHandler.flags_zero in
  SignalHandler.test_signal 65 15 (snd (SignalHandler.pop_signal 65 2 fl))
  = true
  /\ SignalHandler.test_signal 65 2 (snd (SignalHandler.pop_signal 65 2 fl))
     = false.
Proof.
  intros fl. split.
  - rewrite (test_signal_after_pop_signal 65 ltac:(lia) 15 2 fl eq_refl).
    reflexivity.
  - rewrite (test_signal_after_pop_signal 65 ltac:(lia) 2 2 fl eq_refl).
    reflexivity.
Defined.

(** X3 on Linux: after SIGINT, signal 40 and SIGINT again, signal 40 is
    raised and SIGTERM is not. *)
Lemma test_signal_after_deliveries_witness :
  SignalHandler.test_signal 65 40
    (SignalHandler.deliver_all 65 [2; 40; 2] SignalHandler.flags_zero) = true
  /\ SignalHandler.test_signal 65 15
       (SignalHandler.deliver_all 65 [2; 40; 2] SignalHandler.flags_zero)
     = false.
Proof.
  split.
  - rewrite (test_signal_after_deliveries 65 ltac:(lia) 40 [2; 40; 2]).
    reflexivity.
  - rewrite (test_signal_after_deliveries 65 ltac:(lia) 15 [2; 40; 2]).
    reflexivity.
Defined.

Section SignalWordsMore.

Import SignalHandler SignalHandler.SIG_FLAGS_ENM.

Variable NSIG : Z.

Lemma flags_ext (fl1 fl2 : sig_flags_t) :
  (forall e, load e fl1 = load e fl2) -> fl1 = fl2.
Proof.
  intros H. destruct fl1 as [a1 b1 c1], fl2 as [a2 b2 c2].
  pose proof (H OS_sigs). pose proof (H RT_sigs). pose proof (H reserved).
  simpl in *. congruence.
Qed.

Lemma union_of_bits_testbit (e : SIG_FLAGS_ENM.t) (sigs : list Z) (i : Z) :
  Z.testbit (union_of_bits NSIG e sigs) i
  = existsb (fun k => SIG_FLAGS_ENM.eqb (flagenm_of k) e
                      && Z.testbit (signal_bitmask NSIG k) i) sigs.
Proof.
  unfold union_of_bits.
  induction sigs as [|k sigs IH]; cbn [List.filter existsb].
  - apply Z.bits_0.
  - destruct (SIG_FLAGS_ENM.eqb (flagenm_of k) e); cbn [map fold_right].
    + rewrite Z.lor_spec, IH. reflexivity.
    + exact IH.
Qed.

Lemma existsb_same_members {A : Type} (f : A -> bool) (l l' : list A) :
  (forall x, In x l <-> In x l') -> existsb f l = existsb f l'.
Proof.
  intros Hmem. apply eq_true_iff_eq. rewrite !existsb_exists.
  split; intros (x & Hin & Hf); exists x; split; try exact Hf;
    apply Hmem; exact Hin.
Qed.

(** X4. The words after a run of deliveries depend only on which signals
    were delivered: two runs with the same members, in whatever order and
    with whatever repetitions, leave the same three words. *)
Theorem deliveries_coalesce (sigs sigs' : list Z) (fl : sig_flags_t) :
  (forall k, In k sigs <-> In k sigs') ->
  deliver_all NSIG sigs fl = deliver_all NSIG sigs' fl.
Proof.
  intros Hmem. apply flags_ext. intros e.
  rewrite !deliver_all_load. f_equal.
  apply Z.bits_inj. intros i.
  rewrite !union_of_bits_testbit.
  apply existsb_same_members. exact Hmem.
Qed.

Lemma in_range_iff_mod (x : Z) : 0 <= x < 2 ^ 32 <-> x mod 2 ^ 32 = x.
Proof.
  split.
  - apply Z.mod_small.
  - intros <-. apply Z.mod_pos_bound. lia.
Qed.

Lemma lor_in_range (a b : Z) :
  0 <= a < 2 ^ 32 -> 0 <= b < 2 ^ 32 -> 0 <= Z.lor a b < 2 ^ 32.
Proof.
  rewrite !in_range_iff_mod, <- !Z.land_ones by lia.
  intros Ha Hb. rewrite Z.land_lor_distr_l, Ha, Hb. reflexivity.
Qed.

Lemma land_in_range (a b : Z) :
  0 <= a < 2 ^ 32 -> 0 <= Z.land a b < 2 ^ 32.
Proof.
  rewrite !in_range_iff_mod, <- !Z.land_ones by lia.
  intros Ha.
  rewrite <- Z.land_assoc, (Z.land_comm b), Z.land_assoc, Ha. reflexivity.
Qed.

Lemma signal_bitmask_in_range (k : Z) : 0 <= signal_bitmask NSIG k < 2 ^ 32.
Proof.
  unfold signal_bitmask, shl1, wrap32.
  destruct (illegal NSIG k); [lia|].
  destruct (k <? 32); [|destruct (k <? 64)]; apply Z.mod_pos_bound; lia.
Qed.

Lemma store_in_range (e : SIG_FLAGS_ENM.t) (v : Z) (fl : sig_flags_t) :
  words_in_range fl -> 0 <= v < 2 ^ 32 -> words_in_range (store e v fl).
Proof.
  intros Hfl Hv e'. rewrite load_store.
  destruct (SIG_FLAGS_ENM.eqb e e'); [exact Hv|apply Hfl].
Qed.

(** X5. The three words stay 32-bit values: when each is in
    [0, 2^32), so is each after a delivery of any signal, after a
    [pop_signal] of any signal and after a [pop_all_signals]. *)
Theorem words_stay_in_range (k : Z) (fl : sig_flags_t) :
  words_in_range fl ->
  words_in_range (handler_callback NSIG k fl)
  /\ words_in_range (snd (pop_signal NSIG k fl))
  /\ words_in_range (snd (pop_all_signals fl)).
Proof.
  intros Hfl. split; [|split].
  - unfold handler_callback, fetch_or.
    destruct (k <? 32); [|destruct (k <? 64)]; cbn [snd];
      apply store_in_range; try exact Hfl;
      apply lor_in_range; try apply Hfl; apply signal_bitmask_in_range.
  - unfold pop_signal, fetch_and.
    destruct (illegal NSIG k); [exact Hfl|]. cbn [snd].
    apply store_in_range; [exact Hfl|].
    apply land_in_range, Hfl.
  - intros e. destruct e; simpl; lia.
Qed.

Lemma to_bool_lor (a b : Z) : to_bool (Z.lor a b) = to_bool a || to_bool b.
Proof.
  unfold to_bool. apply eq_true_iff_eq.
  rewrite orb_true_iff, !negb_true_iff, !Z.eqb_neq, Z.lor_eq_0_iff.
  destruct (Z.eq_dec a 0), (Z.eq_dec b 0); tauto.
Qed.

End SignalWordsMore.

(** X4 on Linux: SIGINT, SIGTERM, SIGINT leaves the words that SIGTERM,
    SIGINT leaves. *)
Lemma deliveries_coalesce_witness :
  SignalHandler.deliver_all 65 [2; 15; 2] SignalHandler.flags_zero
  = SignalHandler.deliver_all 65 [15; 2] SignalHandler.flags_zero.
Proof.
  apply deliveries_coalesce. intros k. simpl. tauto.
Defined.

(** X5 on Linux: the words after a delivery of signal 63 into zero words
    are in range. *)
Lemma words_stay_in_range_witness :
  SignalHandler.words_in_range
    (SignalHandler.handler_callback 65 63 SignalHandler.flags_zero).
Proof.
  apply (words_stay_in_range 65 63 SignalHandler.flags_zero).
  intros e. destruct e; simpl; lia.
Defined.

Section SignalWordsAll.

Import SignalHandler SignalHandler.SIG_FLAGS_ENM.

Variable NSIG : Z.
Hypothesis NSIG_le_96 : NSIG <= 96.

Lemma to_bool_signal_bitmask (k : Z) :
  to_bool (signal_bitmask NSIG k) = negb (illegal NSIG k).
Proof.
  destruct (illegal NSIG k) eqn:Hk.
  - unfold signal_bitmask. rewrite Hk. reflexivity.
  - rewrite (signal_bitmask_legal NSIG NSIG_le_96 k Hk).
    pose proof (bit_index_range NSIG NSIG_le_96 k Hk) as Hr.
    unfold to_bool. apply negb_true_iff, Z.eqb_neq.
    pose proof (Z.pow_pos_nonneg 2 (bit_index k)). lia.
Qed.

Lemma to_bool_union_of_bits (e : SIG_FLAGS_ENM.t) (sigs : list Z) :
  to_bool (union_of_bits NSIG e sigs)
  = existsb (fun k => SIG_FLAGS_ENM.eqb (flagenm_of k) e
                      && negb (illegal NSIG k)) sigs.
Proof.
  unfold union_of_bits.
  induction sigs as [|k sigs IH]; cbn [List.filter existsb]; [reflexivity|].
  destruct (SIG_FLAGS_ENM.eqb (flagenm_of k) e); cbn [map fold_right].
  - rewrite to_bool_lor, to_bool_signal_bitmask, IH. reflexivity.
  - exact IH.
Qed.

(** X6. After the words were zero and the signals [sigs] were delivered,
    [test_all_signals] returns true exactly when some signal of [sigs] is
    legal, and so does the [pop_all_signals] that follows. *)
Theorem test_all_signals_after_deliveries (sigs : list Z) :
  fst (test_all_signals (deliver_all NSIG sigs flags_zero))
  = existsb (fun k => negb (illegal NSIG k)) sigs
  /\ fst (fst (pop_all_signals (deliver_all NSIG sigs flags_zero)))
     = existsb (fun k => negb (illegal NSIG k)) sigs.
Proof.
  assert (H : fst (test_all_signals (deliver_all NSIG sigs flags_zero))
              = existsb (fun k => negb (illegal NSIG k)) sigs).
  { unfold test_all_signals. cbn [fst mask_OS_sigs mask_RT_sigs mask_reserved].
    rewrite !deliver_all_load. cbn [load flags_zero flag_OS flag_RT flag_reserved].
    rewrite !Z.lor_0_l, !to_bool_union_of_bits.
    induction sigs as [|k sigs IH]; [reflexivity|].
    cbn [existsb]. rewrite <- IH.
    destruct (flagenm_of k), (illegal NSIG k); cbn [SIG_FLAGS_ENM.eqb negb andb orb];
      repeat match goal with
             | |- context [existsb ?f ?l] => destruct (existsb f l)
             end; reflexivity. }
  split; [exact H|].
  rewrite <- H. reflexivity.
Qed.

End SignalWordsAll.

(** X6 on Linux: after deliveries of 0 and 70 alone [test_all_signals] is
    false; with SIGTERM among them it is true. *)
Lemma test_all_signals_after_deliveries_witness :
  fst (SignalHandler.test_all_signals
         (SignalHandler.deliver_all 65 [0; 70] SignalHandler.flags_zero))
  = false
  /\ fst (SignalHandler.test_all_signals
            (SignalHandler.deliver_all 65 [0; 15; 70] SignalHandler.flags_zero))
     = true.
Proof.
  split.
  - destruct (test_all_signals_after_deliveries 65 ltac:(lia) [0; 70])
      as [H _].
    rewrite H. reflexivity.
  - destruct (test_all_signals_after_deliveries 65 ltac:(lia) [0; 15; 70])
      as [H _].
    rewrite H. reflexivity.
Defined.

(** * Further properties of construction and destruction *)

Section SignalHandlerRestore.

Import SignalHandler.

Variables NSIG SA_SIGINFO : Z.

Lemma add_all_from (signal_list : list Z) (acc : gset Z) (s : Z) :
  s ∈ fold_left (fun set signal => {[signal]} ∪ set) signal_list acc
  <-> s ∈ acc \/ In s signal_list.
Proof.
  revert acc. induction signal_list as [|k rest IH]; intros acc; simpl.
  - tauto.
  - rewrite IH, elem_of_union, elem_of_singleton.
    split; [intros [[->|H]|H]|intros [H|[->|H]]]; auto.
Qed.

Lemma elem_of_add_all (signal_list : list Z) (s : Z) :
  s ∈ add_all signal_list <-> In s signal_list.
Proof.
  unfold add_all. rewrite add_all_from. split; [intros [H|H]|auto].
  - apply not_elem_of_empty in H. contradiction.
  - exact H.
Qed.

(** The loop of [restore_actions] touches only dispositions and leaves
    each signal with its restored disposition. *)
Lemma restore_loop (o : oracle) (old_handlers : gmap Z sigaction_t)
    (p : process) :
  let q := map_fold (fun signum handler p => snd (sigaction o signum handler p))
                    p old_handlers in
  instance_exists_ q = instance_exists_ p
  /\ sig_flags_ q = sig_flags_ p
  /\ blocked q = blocked p
  /\ forall s, disposition_of q s = restored o old_handlers p s.
Proof.
  cbv zeta.
  apply (map_fold_weak_ind
           (fun q m =>
              instance_exists_ q = instance_exists_ p
              /\ sig_flags_ q = sig_flags_ p
              /\ blocked q = blocked p
              /\ forall s, disposition_of q s = restored o m p s)).
  - split; [reflexivity|split; [reflexivity|split; [reflexivity|]]].
    intros s. unfold restored. rewrite lookup_empty. reflexivity.
  - intros k h m q Hfresh (Hflag & Hfl & Hbl & Hdisp).
    unfold sigaction. destruct (sigaction_fails o k) eqn:Hk; cbn [snd].
    + split; [exact Hflag|split; [exact Hfl|split; [exact Hbl|]]].
      intros s. rewrite Hdisp.
      unfold restored. destruct (decide (k = s)) as [->|Hne].
      * rewrite lookup_insert_eq, Hfresh, Hk. reflexivity.
      * rewrite lookup_insert_ne by exact Hne. reflexivity.
    + split; [exact Hflag|split; [exact Hfl|split; [exact Hbl|]]].
      intros s.
      unfold restored, disposition_of. cbn [dispositions set_dispositions].
      destruct (decide (k = s)) as [->|Hne].
      * rewrite !lookup_insert_eq, Hk. reflexivity.
      * rewrite !lookup_insert_ne by exact Hne. apply Hdisp.
Qed.

Lemma restore_actions_spec (o : oracle) (sigmask : gset Z)
    (old_handlers : gmap Z sigaction_t) (p : process) :
  let q := restore_actions o sigmask old_handlers p in
  instance_exists_ q = instance_exists_ p
  /\ sig_flags_ q = sig_flags_ p
  /\ blocked q = (if sigmask_errc o =? 0 then blocked p ∖ sigmask
                  else blocked p)
  /\ forall s, disposition_of q s = restored o old_handlers p s.
Proof.
  cbv zeta. unfold restore_actions.
  destruct (restore_loop o old_handlers p) as (Hflag & Hfl & Hbl & Hdisp).
  unfold pthread_sigmask.
  destruct (sigmask_errc o =? 0); cbn [snd].
  - split; [exact Hflag|split; [exact Hfl|split]].
    + cbn. rewrite Hbl. reflexivity.
    + exact Hdisp.
  - split; [exact Hflag|split; [exact Hfl|split; [exact Hbl|exact Hdisp]]].
Qed.

Lemma restored_skip (o : oracle) (old_handlers : gmap Z sigaction_t)
    (p : process) (k s : Z) (h : sigaction_t) :
  old_handlers !! k = None -> sigaction_fails o k = true ->
  restored o (<[k := h]> old_handlers) p s = restored o old_handlers p s.
Proof.
  intros Hfresh Hk. unfold restored. destruct (decide (k = s)) as [->|Hne].
  - rewrite lookup_insert_eq, Hfresh, Hk. reflexivity.
  - rewrite lookup_insert_ne by exact Hne. reflexivity.
Qed.

Lemma restored_install (o : oracle) (old_handlers : gmap Z sigaction_t)
    (p : process) (k s : Z) (act : sigaction_t) :
  old_handlers !! k = None -> sigaction_fails o k = false ->
  restored o (<[k := disposition_of p k]> old_handlers)
           (set_dispositions (<[k := act]> (dispositions p)) p) s
  = restored o old_handlers p s.
Proof.
  intros Hfresh Hk. unfold restored. cbn [dispositions set_dispositions].
  destruct (decide (k = s)) as [->|Hne].
  - rewrite lookup_insert_eq, Hfresh, Hk. reflexivity.
  - rewrite !lookup_insert_ne by exact Hne. reflexivity.
Qed.

(** The installation loop over signals without repetition, none of them
    saved yet: when it ends, what [restore_actions] would restore is what
    it would have restored before the loop; when it throws, that has been
    restored. *)
Lemma install_restorable (o : oracle) (flags : Z) (throw_sig_error : bool)
    (signal_list : list Z) (sigmask : gset Z)
    (old_handlers : gmap Z sigaction_t) (p : process) :
  List.NoDup signal_list ->
  (forall s, In s signal_list -> old_handlers !! s = None) ->
  match install SA_SIGINFO o flags throw_sig_error signal_list sigmask
                old_handlers p with
  | (q, Ok new_handlers) =>
      instance_exists_ q = instance_exists_ p
      /\ sig_flags_ q = sig_flags_ p
      /\ blocked q = blocked p
      /\ forall s, restored o new_handlers q s = restored o old_handlers p s
  | (q, Throw e) =>
      e = system_error (sigaction_errno o)
      /\ instance_exists_ q = false
      /\ sig_flags_ q = sig_flags_ p
      /\ blocked q = (if sigmask_errc o =? 0 then blocked p ∖ sigmask
                      else blocked p)
      /\ forall s, disposition_of q s = restored o old_handlers p s
  end.
Proof.
  revert old_handlers p.
  induction signal_list as [|k rest IH]; intros old_handlers p Hnodup Hfresh.
  - simpl. auto.
  - apply List.NoDup_cons_iff in Hnodup as [Hk Hrest].
    assert (Hfresh_k : old_handlers !! k = None) by (apply Hfresh; left; reflexivity).
    assert (Hfresh' : forall h s, In s rest ->
                                  (<[k := h]> old_handlers) !! s = None).
    { intros h s Hs. rewrite lookup_insert_ne by (intros ->; contradiction).
      apply Hfresh. right. exact Hs. }
    cbn [install]. unfold sigaction.
    destruct (sigaction_fails o k) eqn:Hfail.
    + destruct throw_sig_error; cbn [Z.eqb andb].
      * destruct (restore_actions_spec o sigmask old_handlers p)
          as (Hflag & Hfl & Hbl & Hdisp).
        split; [reflexivity|]. split; [reflexivity|].
        split; [exact Hfl|]. split; [exact Hbl|exact Hdisp].
      * specialize (IH (<[k := uninitialised o]> old_handlers) p Hrest
                       (Hfresh' _)).
        destruct (install _ _ _ _ _ _ _ _) as [q [new_handlers|e]].
        -- destruct IH as (Hflag & Hfl & Hbl & Hres).
           repeat (split; [assumption|]).
           intros s. rewrite Hres. apply restored_skip; assumption.
        -- destruct IH as (He & Hflag & Hfl & Hbl & Hres).
           repeat (split; [assumption|]).
           intros s. rewrite Hres. apply restored_skip; assumption.
    + cbn [Z.eqb andb].
      specialize (IH (<[k := disposition_of p k]> old_handlers)
                     (set_dispositions
                        (<[k := mkSigaction (Z.lor flags SA_SIGINFO)
                                            handler_callback_ptr]>
                           (dispositions p)) p)
                     Hrest (Hfresh' _)).
      destruct (install _ _ _ _ _ _ _ _) as [q [new_handlers|e]].
      * destruct IH as (Hflag & Hfl & Hbl & Hres).
        repeat (split; [assumption|]).
        intros s. rewrite Hres. apply restored_install; assumption.
      * destruct IH as (He & Hflag & Hfl & Hbl & Hres).
        repeat (split; [assumption|]).
        intros s. rewrite Hres. apply restored_install; assumption.
Qed.

(** What a completed installation loop has done. *)
Lemma install_effect (o : oracle) (flags : Z) (throw_sig_error : bool)
    (signal_list : list Z) (sigmask : gset Z)
    (old_handlers new_handlers : gmap Z sigaction_t) (p q : process) :
  install SA_SIGINFO o flags throw_sig_error signal_list sigmask old_handlers p
  = (q, Ok new_handlers) ->
  blocked q = blocked p
  /\ sig_flags_ q = sig_flags_ p
  /\ (forall s, is_Some (new_handlers !! s)
                <-> is_Some (old_handlers !! s) \/ In s signal_list)
  /\ (forall s, dispositions q !! s
                = if existsb (Z.eqb s) signal_list
                     && negb (sigaction_fails o s)
                  then Some (mkSigaction (Z.lor flags SA_SIGINFO)
                                         handler_callback_ptr)
                  else dispositions p !! s)
  /\ (throw_sig_error = true ->
      forall s, In s signal_list -> sigaction_fails o s = false).
Proof.
  revert old_handlers p.
  induction signal_list as [|k rest IH]; intros old_handlers p.
  - simpl. intros [= <- <-].
    split; [reflexivity|]. split; [reflexivity|].
    split; [intros s; tauto|]. split; [reflexivity|].
    intros _ s [].
  - cbn [install]. unfold sigaction.
    destruct (sigaction_fails o k) eqn:Hfail.
    + destruct throw_sig_error; cbn [Z.eqb andb]; [discriminate|].
      intros H. apply IH in H as (Hbl & Hfl & Hdom & Hdisp & _).
      split; [exact Hbl|]. split; [exact Hfl|]. split; [|split].
      * intros s. rewrite Hdom, lookup_insert_is_Some. cbn [In].
        destruct (decide (k = s)); tauto.
      * intros s. rewrite Hdisp. cbn [existsb].
        destruct (Z.eqb_spec s k) as [->|Hne]; [|reflexivity].
        rewrite Hfail, !andb_false_r. reflexivity.
      * discriminate.
    + cbn [Z.eqb andb].
      intros H. apply IH in H as (Hbl & Hfl & Hdom & Hdisp & Hstrict).
      split; [exact Hbl|]. split; [exact Hfl|]. split; [|split].
      * intros s. rewrite Hdom, lookup_insert_is_Some. cbn [In].
        destruct (decide (k = s)); tauto.
      * intros s. rewrite Hdisp. cbn [existsb dispositions set_dispositions].
        destruct (Z.eqb_spec s k) as [->|Hne].
        -- rewrite Hfail, lookup_insert_eq.
           destruct (existsb (Z.eqb k) rest); reflexivity.
        -- rewrite lookup_insert_ne by congruence. reflexivity.
      * intros Hthrow s [<-|Hs]; [exact Hfail|].
        apply Hstrict; assumption.
Qed.

(** What a construction that returns has gone through. *)
Lemma construct_ok_inv (o : oracle) (signal_list : list Z) (flags : Z)
    (throw_sig_error : bool) (p p' : process) (self : t) :
  construct NSIG SA_SIGINFO o signal_list flags throw_sig_error p
  = (p', Ok self) ->
  instance_exists_ p = false
  /\ first_illegal NSIG signal_list = None
  /\ (sigmask_errc o =? 0) = true
  /\ exists q new_handlers,
       install SA_SIGINFO o flags throw_sig_error signal_list
               (add_all signal_list) ∅
               (set_blocked (blocked p ∪ add_all signal_list)
                            (set_instance_exists true p))
       = (q, Ok new_handlers)
       /\ p' = clear_sig_flags q
       /\ self = mkSignalHandler (add_all signal_list) new_handlers
                                 (mkDispatcher (add_all signal_list)).
Proof.
  unfold construct.
  destruct (instance_exists_ p); [discriminate|].
  destruct (first_illegal NSIG signal_list); [discriminate|].
  unfold pthread_sigmask at 1.
  destruct (sigmask_errc o =? 0) eqn:Hmask.
  - cbn [negb Z.eqb].
    destruct (install _ _ _ _ _ _ _ _) as [q [new_handlers|e]] eqn:Hinst;
      [|discriminate].
    unfold start_dispatcher.
    destruct (dispatcher_errc o =? 0); [|discriminate].
    intros [= <- <-].
    split; [reflexivity|]. split; [reflexivity|]. split; [reflexivity|].
    exists q, new_handlers. repeat split.
  - destruct (negb (sigmask_errc o =? 0)) eqn:Hneg; [discriminate|].
    rewrite Hmask in Hneg. discriminate.
Qed.

(** X7. A construction that returns has zeroed the three words, so no
    signal tests as raised; the dispatcher unblocks the set [sigmask_]; a
    disposition is saved for every requested signal and for no other;
    each requested signal on which [sigaction] did not fail has the
    handler of the class with [flags | SA_SIGINFO], and every other
    disposition is as before; under the throwing policy [sigaction]
    failed on none of them. And when [sigaction] failed on none of the
    requested signals, which leaves out those that cannot be caught or
    blocked, [sigmask_] holds exactly the requested signals and they are
    blocked on top of what was blocked. *)
Theorem construct_postconditions (o : oracle) (signal_list : list Z)
    (flags : Z) (throw_sig_error : bool) (p p' : process) (self : t) :
  construct NSIG SA_SIGINFO o signal_list flags throw_sig_error p
  = (p', Ok self) ->
  sig_flags_ p' = flags_zero
  /\ (forall n, test_signal NSIG n (sig_flags_ p') = false)
  /\ dispatcher_unblocked (dispatch_thread_ self) = sigmask_ self
  /\ (forall s, is_Some (old_handlers_ self !! s) <-> In s signal_list)
  /\ (forall s, dispositions p' !! s
                = if existsb (Z.eqb s) signal_list
                     && negb (sigaction_fails o s)
                  then Some (mkSigaction (Z.lor flags SA_SIGINFO)
                                         handler_callback_ptr)
                  else dispositions p !! s)
  /\ (throw_sig_error = true ->
      forall s, In s signal_list -> sigaction_fails o s = false)
  /\ ((forall s, In s signal_list -> sigaction_fails o s = false) ->
      (forall s, s ∈ sigmask_ self <-> In s signal_list)
      /\ blocked p' = blocked p ∪ sigmask_ self).
Proof.
  intros H.
  apply construct_ok_inv in H
    as (_ & _ & _ & q & new_handlers & Hinst & -> & ->).
  apply install_effect in Hinst as (Hbl & Hfl & Hdom & Hdisp & Hstrict).
  cbn [sig_flags_ clear_sig_flags set_sig_flags sigmask_ old_handlers_
       dispatch_thread_ dispatcher_unblocked blocked dispositions].
  split; [reflexivity|]. split.
  { intros n. unfold test_signal. destruct (illegal NSIG n); [reflexivity|].
    destruct (flagenm_of n); reflexivity. }
  split; [reflexivity|]. split.
  { intros s. rewrite Hdom, lookup_empty. split; [intros [[x Hx]|Hs]|auto].
    - discriminate.
    - exact Hs. }
  split; [exact Hdisp|]. split; [exact Hstrict|].
  intros _. split; [apply elem_of_add_all|exact Hbl].
Qed.

(** X8. Construction then destruction, for signals requested without
    repetition and with the system calls answering the same way in both:
    the flag is clear, the three words are zero, every signal has the
    disposition it had before the construction, and the signals blocked
    are those that were blocked before and were not requested. *)
Theorem construct_destruct_round_trip (o : oracle) (signal_list : list Z)
    (flags : Z) (throw_sig_error : bool) (p p' : process) (self : t) :
  List.NoDup signal_list ->
  construct NSIG SA_SIGINFO o signal_list flags throw_sig_error p
  = (p', Ok self) ->
  instance_exists_ (destruct_ o self p') = false
  /\ sig_flags_ (destruct_ o self p') = flags_zero
  /\ (forall s, disposition_of (destruct_ o self p') s = disposition_of p s)
  /\ (forall s, s ∈ blocked (destruct_ o self p')
                <-> s ∈ blocked p /\ ~ In s signal_list).
Proof.
  intros Hnodup H.
  apply construct_ok_inv in H
    as (_ & _ & Hmask & q & new_handlers & Hinst & -> & ->).
  pose proof (install_restorable o flags throw_sig_error signal_list
                (add_all signal_list) ∅
                (set_blocked (blocked p ∪ add_all signal_list)
                             (set_instance_exists true p))
                Hnodup (fun s _ => lookup_empty s)) as Hres.
  rewrite Hinst in Hres. destruct Hres as (_ & _ & Hbl & Hres).
  unfold destruct_. cbn [sigmask_ old_handlers_].
  destruct (restore_actions_spec o (add_all signal_list) new_handlers
              (clear_sig_flags q)) as (_ & _ & Hbl' & Hdisp).
  rewrite Hmask in Hbl'.
  split; [reflexivity|]. split; [reflexivity|]. split.
  - intros s.
    change (disposition_of
              (restore_actions o (add_all signal_list) new_handlers
                               (clear_sig_flags q)) s
            = disposition_of p s).
    rewrite Hdisp.
    change (restored o new_handlers q s = disposition_of p s).
    rewrite Hres. unfold restored. rewrite lookup_empty. reflexivity.
  - intros s.
    change (s ∈ blocked (restore_actions o (add_all signal_list) new_handlers
                                         (clear_sig_flags q))
            <-> s ∈ blocked p /\ ~ In s signal_list).
    rewrite Hbl'. cbn [blocked clear_sig_flags set_sig_flags].
    rewrite Hbl. cbn [blocked set_blocked].
    rewrite elem_of_difference, elem_of_union, elem_of_add_all. tauto.
Qed.

Lemma install_strict_throws (o : oracle) (flags : Z) (signal_list : list Z)
    (sigmask : gset Z) (old_handlers : gmap Z sigaction_t) (p : process) :
  existsb (sigaction_fails o) signal_list = true ->
  exists q e,
    install SA_SIGINFO o flags true signal_list sigmask old_handlers p
    = (q, Throw e).
Proof.
  revert old_handlers p.
  induction signal_list as [|k rest IH]; intros old_handlers p;
    [discriminate|].
  cbn [existsb install]. unfold sigaction.
  destruct (sigaction_fails o k); cbn [Z.eqb andb orb]; [eauto|].
  apply IH.
Qed.

(** X9. Under the throwing policy, with no instance live, legal signals
    without repetition and [pthread_sigmask] succeeding: when [sigaction]
    fails on one of the signals, the construction throws [system_error]
    with that [errno], the flag is clear again, the words are untouched,
    every signal has the disposition it had before the call, and the
    signals blocked are those that were blocked before and were not
    requested. *)
Theorem construct_install_failure_rolls_back (o : oracle)
    (signal_list : list Z) (flags : Z) (p : process) :
  instance_exists_ p = false ->
  all_legal NSIG signal_list = true ->
  List.NoDup signal_list ->
  sigmask_errc o = 0 ->
  existsb (sigaction_fails o) signal_list = true ->
  exists q,
    construct NSIG SA_SIGINFO o signal_list flags true p
    = (q, Throw (system_error (sigaction_errno o)))
    /\ instance_exists_ q = false
    /\ sig_flags_ q = sig_flags_ p
    /\ (forall s, disposition_of q s = disposition_of p s)
    /\ (forall s, s ∈ blocked q <-> s ∈ blocked p /\ ~ In s signal_list).
Proof.
  intros Hfree Hlegal Hnodup Hmask Hfail.
  unfold construct.
  rewrite Hfree, (first_illegal_none NSIG _ Hlegal).
  unfold pthread_sigmask at 1. rewrite Hmask. cbn [Z.eqb negb].
  pose proof (install_restorable o flags true signal_list
                (add_all signal_list) ∅
                (set_blocked
                   (blocked (set_instance_exists true p) ∪ add_all signal_list)
                   (set_instance_exists true p))
                Hnodup (fun s _ => lookup_empty s)) as Hres.
  destruct (install_strict_throws o flags signal_list (add_all signal_list) ∅
              (set_blocked
                 (blocked (set_instance_exists true p) ∪ add_all signal_list)
                 (set_instance_exists true p)) Hfail)
    as (q & e & Hinst).
  rewrite Hinst in Hres |- *.
  destruct Hres as (-> & Hflag & Hfl & Hbl & Hdisp).
  rewrite Hmask in Hbl.
  exists q. split; [reflexivity|]. split; [exact Hflag|].
  split; [exact Hfl|]. split.
  - intros s. rewrite Hdisp. unfold restored. rewrite lookup_empty.
    reflexivity.
  - intros s. rewrite Hbl.
    cbn [blocked set_blocked set_instance_exists Z.eqb].
    rewrite elem_of_difference, elem_of_union, elem_of_add_all. tauto.
Qed.

(** X10. With no instance live and legal signals, when [pthread_sigmask]
    fails the construction throws [system_error] with its code, from the
    list of signals and from a list of pairs alike, and the process is as
    before the call. *)
Theorem construct_mask_failure_leaves_process (o : oracle)
    (initialiser_list : list (Z * Z)) (flags : Z) (throw_sig_error : bool)
    (p : process) :
  instance_exists_ p = false ->
  all_legal NSIG (map fst initialiser_list) = true ->
  sigmask_errc o <> 0 ->
  construct NSIG SA_SIGINFO o (map fst initialiser_list) flags
            throw_sig_error p
  = (p, Throw (system_error (sigmask_errc o)))
  /\ construct_pairs NSIG SA_SIGINFO o initialiser_list throw_sig_error p
     = (p, Throw (system_error (sigmask_errc o))).
Proof.
  intros Hfree Hlegal Hmask. apply Z.eqb_neq in Hmask.
  unfold construct, construct_pairs.
  rewrite Hfree, first_illegal_pair_fst, (first_illegal_none NSIG _ Hlegal).
  unfold pthread_sigmask. rewrite !Hmask. cbn [negb snd].
  rewrite ?Hmask. cbn [negb snd].
  rewrite (process_flag_round_trip p Hfree). split; reflexivity.
Qed.

(** X11. With no instance live, legal signals, [pthread_sigmask]
    succeeding and no installation failure that throws: when the
    dispatcher thread cannot be started the construction throws
    [system_error] with that code and [instance_exists_] stays set, so
    every later construction, in either form, throws [logic_error]. *)
Theorem construct_dispatcher_failure_keeps_flag (o : oracle)
    (signal_list : list Z) (flags : Z) (throw_sig_error : bool)
    (p : process) :
  instance_exists_ p = false ->
  all_legal NSIG signal_list = true ->
  sigmask_errc o = 0 ->
  negb throw_sig_error
  || forallb (fun signal => negb (sigaction_fails o signal)) signal_list
  = true ->
  dispatcher_errc o <> 0 ->
  exists q,
    construct NSIG SA_SIGINFO o signal_list flags throw_sig_error p
    = (q, Throw (system_error (dispatcher_errc o)))
    /\ instance_exists_ q = true
    /\ (forall o' signal_list' flags' throw_sig_error',
          construct NSIG SA_SIGINFO o' signal_list' flags' throw_sig_error' q
          = (q, Throw logic_error))
    /\ (forall o' initialiser_list' throw_sig_error',
          construct_pairs NSIG SA_SIGINFO o' initialiser_list'
                          throw_sig_error' q
          = (q, Throw logic_error)).
Proof.
  intros Hfree Hlegal Hmask Hsig Hdisp. apply Z.eqb_neq in Hdisp.
  unfold construct at 1.
  rewrite Hfree, (first_illegal_none NSIG _ Hlegal).
  unfold pthread_sigmask at 1. rewrite Hmask. cbn [Z.eqb negb].
  rewrite <- install_with_flags.
  rewrite <- (with_flags_fst flags signal_list) in Hsig.
  match goal with
  | |- context [install_pairs _ _ _ ?l ?m ?h ?q] =>
      destruct (install_pairs_ok SA_SIGINFO o throw_sig_error l m h q Hsig)
        as (p' & new_handlers & Hinst)
  end.
  rewrite Hinst.
  apply install_pairs_flag in Hinst.
  unfold start_dispatcher. rewrite Hdisp.
  assert (Hlive : instance_exists_ (clear_sig_flags p') = true)
    by (cbn; rewrite Hinst; reflexivity).
  exists (clear_sig_flags p'). split; [reflexivity|]. split; [exact Hlive|].
  split; intros *.
  - unfold construct. rewrite Hlive. reflexivity.
  - unfold construct_pairs. rewrite Hlive. reflexivity.
Qed.

End SignalHandlerRestore.

(** X7 on Linux: after a construction for SIGINT and SIGTERM in a fresh
    process the words are zero, SIGTERM has the handler of the class with
    [SA_SIGINFO], and SIGTERM is blocked. *)
Lemma construct_postconditions_witness :
  exists p' self,
    SignalHandler.construct 65 4 SignalHandler.linux_oracle [2; 15] 0 true
                            SignalHandler.fresh_process
    = (p', Ok self)
    /\ SignalHandler.sig_flags_ p' = SignalHandler.flags_zero
    /\ SignalHandler.dispositions p' !! 15
       = Some (SignalHandler.mkSigaction 4 SignalHandler.handler_callback_ptr)
    /\ 15 ∈ SignalHandler.blocked p'.
Proof.
  destruct (construct_succeeds 65 4 SignalHandler.linux_oracle [2; 15] 0 true
              SignalHandler.fresh_process eq_refl eq_refl eq_refl)
    as (p' & self & H).
  exists p', self. split; [exact H|].
  destruct (construct_postconditions 65 4 _ _ _ _ _ _ _ H)
    as (Hfl & _ & _ & _ & Hdisp & _ & Hmask).
  split; [exact Hfl|]. split; [exact (Hdisp 15)|].
  destruct Hmask as [Hset Hbl].
  { intros s [<-|[<-|[]]]; reflexivity. }
  rewrite Hbl. apply elem_of_union_r, Hset. simpl. auto.
Defined.

(** X8 on Linux: construction for SIGINT and SIGTERM in a fresh process,
    then destruction, leaves SIGINT with the default disposition and the
    flag clear. *)
Lemma construct_destruct_round_trip_witness :
  exists p' self,
    SignalHandler.construct 65 4 SignalHandler.linux_oracle [2; 15] 0 true
                            SignalHandler.fresh_process
    = (p', Ok self)
    /\ SignalHandler.instance_exists_
         (SignalHandler.destruct_ SignalHandler.linux_oracle self p') = false
    /\ SignalHandler.disposition_of
         (SignalHandler.destruct_ SignalHandler.linux_oracle self p') 2
       = SignalHandler.mkSigaction 0 SignalHandler.SIG_DFL.
Proof.
  destruct (construct_succeeds 65 4 SignalHandler.linux_oracle [2; 15] 0 true
              SignalHandler.fresh_process eq_refl eq_refl eq_refl)
    as (p' & self & H).
  exists p', self. split; [exact H|].
  assert (Hnodup : List.NoDup [2; 15]).
  { repeat (apply List.NoDup_cons; [simpl; lia|]). apply List.NoDup_nil. }
  destruct (construct_destruct_round_trip 65 4 _ _ _ _ _ _ _ Hnodup H)
    as (Hflag & _ & Hdisp & _).
  split; [exact Hflag|exact (Hdisp 2)].
Defined.

(** X9 on Linux: asking for SIGINT and SIGKILL under the throwing policy
    throws [system_error] with [EINVAL], and SIGINT has its default
    disposition again. *)
Lemma construct_install_failure_rolls_back_witness :
  exists q,
    SignalHandler.construct 65 4 SignalHandler.linux_oracle [2; 9] 0 true
                            SignalHandler.fresh_process
    = (q, Throw (system_error 22))
    /\ SignalHandler.instance_exists_ q = false
    /\ SignalHandler.disposition_of q 2
       = SignalHandler.mkSigaction 0 SignalHandler.SIG_DFL.
Proof.
  assert (Hnodup : List.NoDup [2; 9]).
  { repeat (apply List.NoDup_cons; [simpl; lia|]). apply List.NoDup_nil. }
  destruct (construct_install_failure_rolls_back 65 4
              SignalHandler.linux_oracle [2; 9] 0 SignalHandler.fresh_process
              eq_refl eq_refl Hnodup eq_refl eq_refl)
    as (q & H & Hflag & _ & Hdisp & _).
  exists q. split; [exact H|]. split; [exact Hflag|exact (Hdisp 2)].
Defined.

(** X10: with [pthread_sigmask] answering [EFAULT] (14), a construction
    for SIGINT throws [system_error 14] and leaves a fresh process as it
    was. *)
Lemma construct_mask_failure_leaves_process_witness :
  SignalHandler.construct 65 4
    (SignalHandler.mkOracle 14 (fun _ => false) 0
       (SignalHandler.mkSigaction 0 SignalHandler.SIG_DFL) 0)
    [2] 0 true SignalHandler.fresh_process
  = (SignalHandler.fresh_process, Throw (system_error 14)).
Proof.
  apply (construct_mask_failure_leaves_process 65 4
           (SignalHandler.mkOracle 14 (fun _ => false) 0
              (SignalHandler.mkSigaction 0 SignalHandler.SIG_DFL) 0)
           [(2, 0)] 0 true SignalHandler.fresh_process eq_refl eq_refl).
  simpl. lia.
Defined.

(** X11: with the start of the dispatcher answering [EAGAIN] (11), a
    construction for SIGINT throws [system_error 11], and a construction
    after it throws [logic_error]. *)
Lemma construct_dispatcher_failure_keeps_flag_witness :
  exists q,
    SignalHandler.construct 65 4
      (SignalHandler.mkOracle 0 (fun _ => false) 0
         (SignalHandler.mkSigaction 0 SignalHandler.SIG_DFL) 11)
      [2] 0 true SignalHandler.fresh_process
    = (q, Throw (system_error 11))
    /\ SignalHandler.construct 65 4 SignalHandler.linux_oracle [15] 0 true q
       = (q, Throw logic_error).
Proof.
  destruct (construct_dispatcher_failure_keeps_flag 65 4
              (SignalHandler.mkOracle 0 (fun _ => false) 0
                 (SignalHandler.mkSigaction 0 SignalHandler.SIG_DFL) 11)
              [2] 0 true SignalHandler.fresh_process
              eq_refl eq_refl eq_refl eq_refl)
    as (q & H & _ & Hnext & _).
  { simpl. lia. }
  exists q. split; [exact H|apply Hnext].
Defined.

(** * Further properties of ThreadManager *)

Section ThreadManagerMore.

Import ThreadManager.

(** X12. When the constructor of the thread throws, [spawn_thread]
    throws that same exception, whichever it is, and the registry is as
    before the call; the live-count is a [uint32_t]. *)
Theorem spawn_start_failure_restores (e : exn) (tm : t) :
  0 <= thread_counter_ tm < 2 ^ 32 ->
  spawn_thread (start_throws e) tm = (tm, Throw e).
Proof.
  intros Hrange.
  pose proof (spawn_start_throws_same e tm (wrap32_small _ Hrange)) as H.
  destruct (spawn_thread (start_throws e) tm) as [tm' r] eqn:Hs.
  simpl in H. subst tm'.
  simpl in Hs. injection Hs as _ <-. reflexivity.
Qed.

(** Spawning fresh, distinct identities one after the other. *)
Lemma run_spawn_all (ids : list positive) (tm : t) :
  List.NoDup ids ->
  (forall id, In id ids -> threads_ tm !! id = None) ->
  wrap32 (thread_counter_ tm) = thread_counter_ tm ->
  exists tm',
    run (spawn_all ids) tm = Some tm'
    /\ size (threads_ tm') = (size (threads_ tm) + length ids)%nat
    /\ thread_counter_ tm'
       = wrap32 (thread_counter_ tm + Z.of_nat (length ids))
    /\ global_stop_source_ tm' = global_stop_source_ tm
    /\ (forall id, In id ids ->
                   threads_ tm' !! id = Some (mkJthread false false))
    /\ (forall id, ~ In id ids -> threads_ tm' !! id = threads_ tm !! id).
Proof.
  revert tm. induction ids as [|id ids IH]; intros tm Hnodup Hfresh Hrange.
  - exists tm. simpl.
    split; [reflexivity|]. split; [lia|].
    split; [rewrite Z.add_0_r; symmetry; exact Hrange|].
    split; [reflexivity|]. split; [intros id []|reflexivity].
  - apply List.NoDup_cons_iff in Hnodup as [Hid Hrest].
    assert (Hnew : threads_ tm !! id = None) by (apply Hfresh; left; reflexivity).
    cbn [spawn_all map run enabled]. rewrite bool_decide_eq_true_2 by exact Hnew.
    destruct (IH (apply_event (ev_spawn (started id)) tm) Hrest)
      as (tm' & Hrun & Hsize & Hcount & Hglobal & Hin & Hout).
    + intros id' Hid'. simpl.
      rewrite lookup_insert_ne by (intros ->; contradiction).
      apply Hfresh. right. exact Hid'.
    + simpl. apply wrap32_idem.
    + exists tm'. split; [exact Hrun|].
      simpl in Hsize, Hcount, Hglobal, Hout.
      rewrite map_size_insert_None in Hsize by exact Hnew.
      split; [cbn [length]; lia|]. split.
      { rewrite Hcount, wrap32_add_l. f_equal. cbn [length]. lia. }
      split; [exact Hglobal|]. split.
      * intros id' [<-|Hid']; [|apply Hin; exact Hid'].
        rewrite (Hout id Hid). apply lookup_insert_eq.
      * intros id' Hid'. rewrite (Hout id').
        -- apply lookup_insert_ne. intros ->. apply Hid'. left. reflexivity.
        -- intros H. apply Hid'. right. exact H.
Qed.

(** X13. From the empty registry, [n] calls of [spawn_thread] that start
    threads of distinct identities, with [n] below [2^32], all return;
    afterwards [total_threads] and [alive_threads] are both [n], no stop
    is requested of any of the threads, and when [n] is positive
    [all_running] and [any_running] are true. *)
Theorem spawn_all_counts (ids : list positive) :
  List.NoDup ids ->
  Z.of_nat (length ids) < 2 ^ 32 ->
  exists tm,
    run (spawn_all ids) init = Some tm
    /\ total_threads tm = Z.of_nat (length ids)
    /\ alive_threads tm = Z.of_nat (length ids)
    /\ (forall id, In id ids -> stop_requested id tm = Ok false)
    /\ (ids <> [] -> all_running tm = true /\ any_running tm = true).
Proof.
  intros Hnodup Hlen.
  destruct (run_spawn_all ids init Hnodup (fun id _ => lookup_empty id)
              eq_refl)
    as (tm & Hrun & Hsize & Hcount & _ & Hin & _).
  change (size (threads_ init)) with 0%nat in Hsize.
  change (thread_counter_ init) with 0 in Hcount.
  rewrite Z.add_0_l, wrap32_small in Hcount by lia.
  exists tm. split; [exact Hrun|].
  unfold total_threads, alive_threads, all_running, any_running,
    stop_requested.
  rewrite Hsize, Hcount. cbn [Nat.add].
  split; [reflexivity|]. split; [reflexivity|]. split.
  - intros id Hid. rewrite (Hin id Hid). reflexivity.
  - intros Hne. destruct ids as [|id ids]; [contradiction|].
    cbn [length] in *. split.
    + apply andb_true_iff. split.
      * rewrite Z.geb_leb. apply Z.leb_le. lia.
      * apply negb_true_iff, Z.eqb_neq. lia.
    + apply Z.gtb_lt. lia.
Qed.

Lemma registry_inv_exact (tm : t) :
  registry_inv tm -> total_threads tm < 2 ^ 32 ->
  thread_counter_ tm = Z.of_nat (running_count (threads_ tm)).
Proof.
  unfold registry_inv, total_threads. intros -> Hsize.
  pose proof (running_count_le_size (threads_ tm)).
  apply wrap32_small. lia.
Qed.

(** X14. In a registry whose live-count is the number of threads that
    have not returned, with fewer than [2^32] threads: when the work body
    of a thread of the table returns, [alive_threads] goes down by
    exactly one, [total_threads] is unchanged, the thread stays in the
    table with its stop state, and the live-count is again the number of
    threads that have not returned. *)
Theorem worker_returns_counts (id : positive) (th : jthread) (tm : t) :
  registry_inv tm -> total_threads tm < 2 ^ 32 ->
  threads_ tm !! id = Some th -> returned th = false ->
  alive_threads (worker_returns id tm) = alive_threads tm - 1
  /\ total_threads (worker_returns id tm) = total_threads tm
  /\ stop_requested id (worker_returns id tm) = stop_requested id tm
  /\ registry_inv (worker_returns id tm).
Proof.
  intros Hinv Hsize Hth Hret.
  pose proof (registry_inv_exact tm Hinv Hsize) as Hexact.
  pose proof (running_count_bounds _ _ _ Hth) as Hpos. rewrite Hret in Hpos.
  pose proof (running_count_le_size (threads_ tm)) as Hle.
  pose proof (worker_returns_inv id tm Hinv) as Hinv'.
  unfold alive_threads, total_threads, stop_requested, worker_returns in *.
  rewrite Hth, Hret in *. cbn [thread_counter_ threads_ fetch_sub
    set_thread_counter set_threads] in *.
  split; [apply wrap32_small; lia|]. split.
  - rewrite map_size_insert_Some by (rewrite Hth; eauto). reflexivity.
  - split; [|exact Hinv']. rewrite lookup_insert_eq. reflexivity.
Qed.

Lemma running_count_pos_iff (m : gmap positive jthread) :
  (0 < running_count m)%nat
  <-> exists id th, m !! id = Some th /\ returned th = false.
Proof.
  induction m as [|i x m Hfresh IH] using map_ind.
  - rewrite running_count_empty. split; [lia|].
    intros (id & th & Hth & _). rewrite lookup_empty in Hth. discriminate.
  - rewrite running_count_insert_fresh by exact Hfresh. split.
    + intros Hpos. destruct (returned x) eqn:Hx.
      * apply IH in Hpos as (id & th & Hth & Hret).
        exists id, th. split; [|exact Hret].
        rewrite lookup_insert_ne by congruence. exact Hth.
      * exists i, x. split; [apply lookup_insert_eq|exact Hx].
    + intros (id & th & Hth & Hret).
      destruct (decide (i = id)) as [->|Hne].
      * rewrite lookup_insert_eq in Hth. injection Hth as ->.
        rewrite Hret. lia.
      * rewrite lookup_insert_ne in Hth by exact Hne.
        assert (0 < running_count m)%nat by (apply IH; eauto).
        destruct (returned x); lia.
Qed.

Lemma running_count_full_iff (m : gmap positive jthread) :
  running_count m = size m
  <-> forall id th, m !! id = Some th -> returned th = false.
Proof.
  induction m as [|i x m Hfresh IH] using map_ind.
  - rewrite running_count_empty, map_size_empty. split; [|reflexivity].
    intros _ id th Hth. rewrite lookup_empty in Hth. discriminate.
  - rewrite running_count_insert_fresh, map_size_insert_None by exact Hfresh.
    pose proof (running_count_le_size m) as Hle. split.
    + intros Hfull id th Hth. destruct (returned x) eqn:Hx; [lia|].
      destruct (decide (i = id)) as [->|Hne].
      * rewrite lookup_insert_eq in Hth. congruence.
      * rewrite lookup_insert_ne in Hth by exact Hne.
        apply (proj1 IH ltac:(lia) id th Hth).
    + intros Hall.
      rewrite (Hall i x (lookup_insert_eq m i x)). f_equal.
      apply IH. intros id th Hth. apply (Hall id th).
      rewrite lookup_insert_ne by congruence. exact Hth.
Qed.

(** X15. In a registry whose live-count is the number of threads that
    have not returned, with fewer than [2^32] threads: [any_running] is
    true exactly when the work body of some thread of the table has not
    returned, and [all_running] is true exactly when the table is not
    empty and the work body of none of its threads has returned. *)
Theorem running_queries_meaning (tm : t) :
  registry_inv tm -> total_threads tm < 2 ^ 32 ->
  (any_running tm = true
   <-> exists id th, threads_ tm !! id = Some th /\ returned th = false)
  /\ (all_running tm = true
      <-> threads_ tm <> ∅
          /\ forall id th, threads_ tm !! id = Some th -> returned th = false).
Proof.
  intros Hinv Hsize.
  pose proof (registry_inv_exact tm Hinv Hsize) as Hexact.
  pose proof (running_count_le_size (threads_ tm)) as Hle.
  unfold any_running, all_running. rewrite Hexact. split.
  - rewrite <- running_count_pos_iff, Z.gtb_lt. lia.
  - rewrite <- running_count_full_iff, <- map_size_non_empty_iff.
    rewrite andb_true_iff, negb_true_iff, Z.eqb_neq, Z.geb_leb, Z.leb_le.
    lia.
Qed.

(** The loop of [join] changes the live-count only. *)
Lemma join_loop_frame (tm : t) (m : gmap positive jthread) :
  let r := map_fold (fun _ th tm => join_thread th tm) tm m in
  global_stop_source_ r = global_stop_source_ tm
  /\ threads_ r = threads_ tm
  /\ bucket_count_ r = bucket_count_ tm.
Proof.
  cbv zeta.
  apply (map_fold_weak_ind
           (fun r _ =>
              global_stop_source_ r = global_stop_source_ tm
              /\ threads_ r = threads_ tm
              /\ bucket_count_ r = bucket_count_ tm)).
  - auto.
  - intros id th m' r _ IH. unfold join_thread.
    destruct (returned th); [exact IH|exact IH].
Qed.

(** X16. In a registry whose live-count is the number of threads that
    have not returned, [join] leaves the live-count at zero and the table
    empty and changes nothing else, so [all_running] and [any_running]
    are false after it; a second [join] changes nothing; and [join] on a
    registry with an empty table changes nothing. *)
Theorem join_result (tm : t) :
  registry_inv tm ->
  join tm = mkThreadManager 0 (global_stop_source_ tm) ∅ (bucket_count_ tm)
  /\ all_running (join tm) = false
  /\ any_running (join tm) = false
  /\ join (join tm) = join tm
  /\ (threads_ tm = ∅ -> join tm = tm).
Proof.
  intros Hinv.
  assert (Hjoin : join tm = mkThreadManager 0 (global_stop_source_ tm) ∅
                                            (bucket_count_ tm)).
  { unfold join.
    rewrite join_loop by (apply registry_inv_counter_range; exact Hinv).
    unfold set_threads, set_thread_counter. cbn.
    rewrite Hinv, wrap32_sub_l, Z.sub_diag. reflexivity. }
  split; [exact Hjoin|]. rewrite Hjoin.
  split; [reflexivity|]. split; [reflexivity|]. split; [reflexivity|].
  intros Hempty. unfold registry_inv in Hinv.
  rewrite Hempty, running_count_empty in Hinv.
  destruct tm as [c g m b]. cbn in *. subst. reflexivity.
Qed.

Lemma apply_event_global_stop (ev : event) (tm : t) :
  global_stop_source_ (apply_event ev tm)
  = global_stop_source_ tm || is_request_stop_all ev.
Proof.
  destruct ev as [[errc|id|id]|id| |id| |limit]; cbn [apply_event];
    try (cbn; rewrite ?orb_false_r, ?orb_true_r; reflexivity).
  - unfold worker_returns. rewrite orb_false_r.
    destruct (threads_ tm !! id) as [th|]; [|reflexivity].
    destruct (returned th); reflexivity.
  - unfold join. cbn [is_request_stop_all global_stop_source_ set_threads].
    rewrite orb_false_r. apply join_loop_frame.
  - unfold request_stop. rewrite orb_false_r.
    destruct (threads_ tm !! id) as [th|]; reflexivity.
Qed.

(** X17. Along any run, [stop_requested_all] is true at the end exactly
    when it was true at the start or the run holds a [request_stop_all]:
    no operation takes a global stop request back. The first
    [request_stop_all] returns true, and one that follows it returns
    false. *)
Theorem global_stop_along_run (evs : list event) (tm tm' : t) :
  run evs tm = Some tm' ->
  stop_requested_all tm'
  = stop_requested_all tm || existsb is_request_stop_all evs
  /\ snd (request_stop_all tm) = negb (stop_requested_all tm)
  /\ snd (request_stop_all (fst (request_stop_all tm))) = false.
Proof.
  intros Hrun. split; [|split; reflexivity].
  revert tm Hrun. induction evs as [|ev evs IH]; intros tm; simpl.
  - intros [= <-]. rewrite orb_false_r. reflexivity.
  - destruct (enabled ev tm); [|discriminate].
    intros Hrun. rewrite (IH _ Hrun).
    unfold stop_requested_all. rewrite apply_event_global_stop, orb_assoc.
    reflexivity.
Qed.

(** X18. For a thread of the table: [request_stop] returns true exactly
    when no stop was requested of it before, a second [request_stop]
    returns false and changes nothing, and the call leaves
    [alive_threads], [total_threads], [stop_requested_all] and the stop
    state of every other thread as they were. *)
Theorem request_stop_once (id : positive) (th : jthread) (tm : t) :
  threads_ tm !! id = Some th ->
  snd (request_stop id tm) = Ok (negb (stop_state th))
  /\ request_stop id (fst (request_stop id tm))
     = (fst (request_stop id tm), Ok false)
  /\ alive_threads (fst (request_stop id tm)) = alive_threads tm
  /\ total_threads (fst (request_stop id tm)) = total_threads tm
  /\ stop_requested_all (fst (request_stop id tm)) = stop_requested_all tm
  /\ (forall id', id' <> id ->
        stop_requested id' (fst (request_stop id tm))
        = stop_requested id' tm).
Proof.
  intros Hth.
  assert (Hcall : request_stop id tm
                  = (set_threads (<[id := mkJthread true (returned th)]>
                                    (threads_ tm)) tm,
                     Ok (negb (stop_state th)))).
  { unfold request_stop. rewrite Hth. reflexivity. }
  rewrite Hcall. cbn [fst snd].
  split; [reflexivity|]. split.
  - unfold request_stop. cbn [threads_ set_threads].
    rewrite lookup_insert_eq. cbn [stop_state returned negb].
    unfold set_threads. cbn. rewrite insert_insert_eq. reflexivity.
  - split; [reflexivity|]. split.
    + unfold total_threads. cbn [threads_ set_threads].
      rewrite map_size_insert_Some by (rewrite Hth; eauto). reflexivity.
    + split; [reflexivity|].
      intros id' Hne. unfold stop_requested. cbn [threads_ set_threads].
      rewrite lookup_insert_ne by congruence. reflexivity.
Qed.

Lemma apply_event_requested (ev : event) (id : positive) (tm : t) :
  requested id tm -> enabled ev tm = true -> is_join ev = false ->
  requested id (apply_event ev tm).
Proof.
  unfold requested. intros (th & Hth & Hstop) Hen Hev.
  destruct ev as [[errc|id'|id']|id'| |id'| |limit]; cbn [apply_event].
  - eauto.
  - eauto.
  - simpl in Hen. apply bool_decide_eq_true in Hen.
    exists th. simpl. rewrite lookup_insert_ne by congruence. auto.
  - unfold worker_returns.
    destruct (threads_ tm !! id') as [th'|] eqn:Hth'; [|eauto].
    destruct (returned th'); [eauto|]. simpl.
    destruct (decide (id' = id)) as [->|Hne].
    + rewrite lookup_insert_eq. eexists. split; [reflexivity|].
      simpl. congruence.
    + rewrite lookup_insert_ne by exact Hne. eauto.
  - discriminate.
  - unfold request_stop.
    destruct (threads_ tm !! id') as [th'|] eqn:Hth'; [|eauto].
    simpl. destruct (decide (id' = id)) as [->|Hne].
    + rewrite lookup_insert_eq. eexists. split; reflexivity.
    + rewrite lookup_insert_ne by exact Hne. eauto.
  - eauto.
  - eauto.
Qed.

(** X19. Once a stop is requested of a thread of the table,
    [stop_requested] for it stays true along every run without a [join]:
    no operation takes a stop request back, and the thread stays in the
    table after its work body has returned. *)
Theorem local_stop_along_run (evs : list event) (id : positive) (tm tm' : t) :
  stop_requested id tm = Ok true ->
  forallb (fun ev => negb (is_join ev)) evs = true ->
  run evs tm = Some tm' ->
  stop_requested id tm' = Ok true.
Proof.
  intros Hreq Hevs Hrun.
  assert (Hstart : requested id tm).
  { unfold stop_requested in Hreq. unfold requested.
    destruct (threads_ tm !! id) as [th|]; [|discriminate].
    exists th. split; [reflexivity|congruence]. }
  assert (Hend : requested id tm').
  { clear Hreq. revert tm Hstart Hrun.
    induction evs as [|ev evs IH]; intros tm Hstart; simpl.
    - intros [= <-]. exact Hstart.
    - simpl in Hevs. apply andb_true_iff in Hevs as [Hev Hrest].
      destruct (enabled ev tm) eqn:Hen; [|discriminate].
      apply (IH Hrest).
      apply apply_event_requested; [exact Hstart|exact Hen|].
      apply negb_true_iff. exact Hev. }
  destruct Hend as (th & Hth & Hstop).
  unfold stop_requested. rewrite Hth, Hstop. reflexivity.
Qed.

(** X20. From a registry whose live-count is the number of threads that
    have not returned, along every run in which no [threads_[tid]]
    throws, the live-count stays that number, and [alive_threads] stays
    between zero and [total_threads]. *)
Theorem run_keeps_counts_consistent (evs : list event) (tm tm' : t) :
  registry_inv tm ->
  forallb insert_ok evs = true ->
  run evs tm = Some tm' ->
  registry_inv tm' /\ 0 <= alive_threads tm' <= total_threads tm'.
Proof.
  intros Hinv Hok Hrun.
  pose proof (run_inv evs tm tm' Hinv Hok Hrun) as Hinv'.
  split; [exact Hinv'|]. apply registry_inv_alive_le_total. exact Hinv'.
Qed.

Lemma apply_event_capacity (ev : event) (tm : t) :
  (size (threads_ tm) <= capacity tm)%nat ->
  (size (threads_ (apply_event ev tm)) <= capacity (apply_event ev tm))%nat.
Proof.
  unfold capacity. intros Hcap.
  destruct ev as [[errc|id|id]|id| |id| |limit]; cbn [apply_event].
  - exact Hcap.
  - exact Hcap.
  - cbn. lia.
  - unfold worker_returns.
    destruct (threads_ tm !! id) as [th|] eqn:Hth; [|exact Hcap].
    destruct (returned th); [exact Hcap|]. cbn.
    rewrite map_size_insert_Some by (rewrite Hth; eauto). exact Hcap.
  - unfold join. cbn [threads_ set_threads bucket_count_].
    rewrite map_size_empty. lia.
  - unfold request_stop.
    destruct (threads_ tm !! id) as [th|] eqn:Hth; [|exact Hcap]. cbn.
    rewrite map_size_insert_Some by (rewrite Hth; eauto). exact Hcap.
  - exact Hcap.
  - cbn. lia.
Qed.

(** X21. [capacity] is never below the number of threads of the table:
    this holds on the empty registry and along every run from a registry
    where it holds. And [reserve] brings [capacity] to at least its
    argument and changes neither the table, nor the live-count, nor the
    global stop request. *)
Theorem capacity_covers_table (evs : list event) (tm tm' : t) (limit : nat) :
  (size (threads_ tm) <= capacity tm)%nat ->
  run evs tm = Some tm' ->
  (size (threads_ tm') <= capacity tm')%nat
  /\ (size (threads_ init) <= capacity init)%nat
  /\ (limit <= capacity (reserve limit tm))%nat
  /\ threads_ (reserve limit tm) = threads_ tm
  /\ thread_counter_ (reserve limit tm) = thread_counter_ tm
  /\ global_stop_source_ (reserve limit tm) = global_stop_source_ tm.
Proof.
  intros Hcap Hrun. split.
  - revert tm Hcap Hrun. induction evs as [|ev evs IH]; intros tm Hcap; simpl.
    + intros [= <-]. exact Hcap.
    + destruct (enabled ev tm); [|discriminate].
      apply IH, apply_event_capacity. exact Hcap.
  - split; [vm_compute; lia|]. split; [cbn; lia|]. repeat split.
Qed.

End ThreadManagerMore.

(** X12 on the empty registry: a spawn whose thread constructor throws
    [bad_alloc] throws [bad_alloc] and leaves the registry empty. *)
Lemma spawn_start_failure_restores_witness :
  ThreadManager.spawn_thread (ThreadManager.start_throws bad_alloc)
                             ThreadManager.init
  = (ThreadManager.init, Throw bad_alloc).
Proof.
  apply (spawn_start_failure_restores bad_alloc ThreadManager.init).
  simpl. lia.
Defined.

(** X13 for three threads. *)
Lemma spawn_all_counts_witness :
  exists tm,
    ThreadManager.run (ThreadManager.spawn_all [1; 2; 3]%positive)
                      ThreadManager.init
    = Some tm
    /\ ThreadManager.total_threads tm = 3
    /\ ThreadManager.alive_threads tm = 3
    /\ ThreadManager.all_running tm = true.
Proof.
  assert (Hnodup : List.NoDup [1; 2; 3]%positive).
  { repeat (apply List.NoDup_cons; [simpl; intuition discriminate|]).
    apply List.NoDup_nil. }
  destruct (spawn_all_counts [1; 2; 3]%positive Hnodup eq_refl)
    as (tm & Hrun & Htotal & Halive & _ & Hall).
  exists tm. split; [exact Hrun|]. split; [exact Htotal|].
  split; [exact Halive|]. apply Hall. discriminate.
Defined.

(** X14 on a registry of one running thread: when it returns,
    [alive_threads] is 0 and [total_threads] still 1. *)
Lemma worker_returns_counts_witness :
  let tm := fst (ThreadManager.spawn_thread (ThreadManager.started 1)
                                            ThreadManager.init) in
  ThreadManager.alive_threads (ThreadManager.worker_returns 1 tm) = 0
  /\ ThreadManager.total_threads (ThreadManager.worker_returns 1 tm) = 1.
Proof.
  intros tm.
  assert (Hinv : ThreadManager.registry_inv tm)
    by (apply spawn_started_inv; [apply init_inv|reflexivity]).
  destruct (worker_returns_counts 1 (ThreadManager.mkJthread false false) tm
              Hinv eq_refl eq_refl eq_refl) as (Halive & Htotal & _).
  split; [exact Halive|exact Htotal].
Defined.

(** X15 on a registry of one running thread: [any_running] is true. *)
Lemma running_queries_meaning_witness :
  ThreadManager.any_running
    (fst (ThreadManager.spawn_thread (ThreadManager.started 1)
                                     ThreadManager.init)) = true.
Proof.
  assert (Hinv : ThreadManager.registry_inv
                   (fst (ThreadManager.spawn_thread (ThreadManager.started 1)
                                                    ThreadManager.init)))
    by (apply spawn_started_inv; [apply init_inv|reflexivity]).
  destruct (running_queries_meaning _ Hinv eq_refl) as [Hany _].
  apply Hany. exists 1%positive, (ThreadManager.mkJthread false false).
  split; reflexivity.
Defined.

(** X16 on a registry of one running thread: [join] leaves the empty
    registry. *)
Lemma join_result_witness :
  ThreadManager.join
    (fst (ThreadManager.spawn_thread (ThreadManager.started 1)
                                     ThreadManager.init))
  = ThreadManager.mkThreadManager 0 false ∅ 1.
Proof.
  assert (Hinv : ThreadManager.registry_inv
                   (fst (ThreadManager.spawn_thread (ThreadManager.started 1)
                                                    ThreadManager.init)))
    by (apply spawn_started_inv; [apply init_inv|reflexivity]).
  destruct (join_result _ Hinv) as [Hjoin _]. exact Hjoin.
Defined.

(** X17: a global stop request outlasts a [join]. *)
Lemma global_stop_along_run_witness :
  exists tm,
    ThreadManager.run
      [ThreadManager.ev_spawn (ThreadManager.started 1);
       ThreadManager.ev_request_stop_all; ThreadManager.ev_join]
      ThreadManager.init
    = Some tm
    /\ ThreadManager.stop_requested_all tm = true.
Proof.
  destruct (ThreadManager.run
              [ThreadManager.ev_spawn (ThreadManager.started 1);
               ThreadManager.ev_request_stop_all; ThreadManager.ev_join]
              ThreadManager.init) as [tm|] eqn:Hrun;
    [|vm_compute in Hrun; discriminate].
  exists tm. split; [reflexivity|].
  destruct (global_stop_along_run _ _ _ Hrun) as [H _].
  rewrite H. reflexivity.
Defined.

(** X18 on a registry of one thread: [request_stop] returns true, then
    false. *)
Lemma request_stop_once_witness :
  let tm := fst (ThreadManager.spawn_thread (ThreadManager.started 1)
                                            ThreadManager.init) in
  snd (ThreadManager.request_stop 1 tm) = Ok true
  /\ snd (ThreadManager.request_stop 1 (fst (ThreadManager.request_stop 1 tm)))
     = Ok false.
Proof.
  intros tm.
  destruct (request_stop_once 1 (ThreadManager.mkJthread false false) tm
              eq_refl) as (Hfirst & Hsecond & _).
  split; [exact Hfirst|]. rewrite Hsecond. reflexivity.
Defined.

(** X19: the stop request of thread 1 is still seen after its work body
    returned and another thread was spawned. *)
Lemma local_stop_along_run_witness :
  exists tm,
    ThreadManager.run
      [ThreadManager.ev_worker_returns 1;
       ThreadManager.ev_spawn (ThreadManager.started 2)]
      (fst (ThreadManager.request_stop 1
              (fst (ThreadManager.spawn_thread (ThreadManager.started 1)
                                               ThreadManager.init))))
    = Some tm
    /\ ThreadManager.stop_requested 1 tm = Ok true.
Proof.
  destruct (ThreadManager.run
              [ThreadManager.ev_worker_returns 1;
               ThreadManager.ev_spawn (ThreadManager.started 2)]
              (fst (ThreadManager.request_stop 1
                      (fst (ThreadManager.spawn_thread
                              (ThreadManager.started 1) ThreadManager.init)))))
    as [tm|] eqn:Hrun; [|vm_compute in Hrun; discriminate].
  exists tm. split; [reflexivity|].
  apply (local_stop_along_run
           [ThreadManager.ev_worker_returns 1;
            ThreadManager.ev_spawn (ThreadManager.started 2)] 1
           (fst (ThreadManager.request_stop 1
                   (fst (ThreadManager.spawn_thread
                           (ThreadManager.started 1) ThreadManager.init))))
           tm eq_refl eq_refl Hrun).
Defined.

(** X20: a spawn, a spawn that cannot start its thread and the return of
    the first thread leave [alive_threads] within [total_threads]. *)
Lemma run_keeps_counts_consistent_witness :
  exists tm,
    ThreadManager.run
      [ThreadManager.ev_spawn (ThreadManager.started 1);
       ThreadManager.ev_spawn (ThreadManager.start_throws (system_error 11));
       ThreadManager.ev_worker_returns 1]
      ThreadManager.init
    = Some tm
    /\ 0 <= ThreadManager.alive_threads tm <= ThreadManager.total_threads tm.
Proof.
  destruct (ThreadManager.run
              [ThreadManager.ev_spawn (ThreadManager.started 1);
               ThreadManager.ev_spawn (ThreadManager.start_throws (system_error 11));
               ThreadManager.ev_worker_returns 1]
              ThreadManager.init) as [tm|] eqn:Hrun;
    [|vm_compute in Hrun; discriminate].
  exists tm. split; [reflexivity|].
  apply (run_keeps_counts_consistent
           [ThreadManager.ev_spawn (ThreadManager.started 1);
            ThreadManager.ev_spawn (ThreadManager.start_throws (system_error 11));
            ThreadManager.ev_worker_returns 1]
           ThreadManager.init tm init_inv eq_refl Hrun).
Defined.

(** X21: after [reserve 10] and one spawn the capacity covers the
    table. *)
Lemma capacity_covers_table_witness :
  exists tm,
    ThreadManager.run
      [ThreadManager.ev_reserve 10;
       ThreadManager.ev_spawn (ThreadManager.started 1)]
      ThreadManager.init
    = Some tm
    /\ (size (ThreadManager.threads_ tm) <= ThreadManager.capacity tm)%nat.
Proof.
  destruct (ThreadManager.run
              [ThreadManager.ev_reserve 10;
               ThreadManager.ev_spawn (ThreadManager.started 1)]
              ThreadManager.init) as [tm|] eqn:Hrun;
    [|vm_compute in Hrun; discriminate].
  exists tm. split; [reflexivity|].
  apply (capacity_covers_table
           [ThreadManager.ev_reserve 10;
            ThreadManager.ev_spawn (ThreadManager.started 1)]
           ThreadManager.init tm 10%nat);
    [vm_compute; lia|exact Hrun].
Defined.

(** * The pair-list constructor, and reading a [SignalMask_t] *)

Section SignalHandlerPairs.

Import SignalHandler.

Variables NSIG SA_SIGINFO : Z.

Lemma add_all_pairs_from (initialiser_list : list (Z * Z)) (acc : gset Z)
    (s : Z) :
  s ∈ fold_left (fun set '(signal, _) => {[signal]} ∪ set) initialiser_list acc
  <-> s ∈ acc \/ In s (map fst initialiser_list).
Proof.
  revert acc. induction initialiser_list as [|[k f] rest IH]; intros acc; simpl.
  - tauto.
  - rewrite IH, elem_of_union, elem_of_singleton.
    split; [intros [[->|H]|H]|intros [H|[->|H]]]; auto.
Qed.

Lemma elem_of_add_all_pairs (initialiser_list : list (Z * Z)) (s : Z) :
  s ∈ add_all_pairs initialiser_list <-> In s (map fst initialiser_list).
Proof.
  unfold add_all_pairs. rewrite add_all_pairs_from.
  split; [intros [H|H]|auto].
  - apply not_elem_of_empty in H. contradiction.
  - exact H.
Qed.

(** The installation loop over pairs with distinct signals, none of them
    saved yet, when it ends. *)
Lemma install_pairs_effect (o : oracle) (throw_sig_error : bool)
    (initialiser_list : list (Z * Z)) (sigmask : gset Z)
    (old_handlers new_handlers : gmap Z sigaction_t) (p q : process) :
  List.NoDup (map fst initialiser_list) ->
  (forall s, In s (map fst initialiser_list) -> old_handlers !! s = None) ->
  install_pairs SA_SIGINFO o throw_sig_error initialiser_list sigmask
                old_handlers p
  = (q, Ok new_handlers) ->
  blocked q = blocked p
  /\ sig_flags_ q = sig_flags_ p
  /\ (forall s, restored o new_handlers q s = restored o old_handlers p s)
  /\ (forall s f, In (s, f) initialiser_list -> sigaction_fails o s = false ->
        dispositions q !! s
        = Some (mkSigaction (Z.lor f SA_SIGINFO) handler_callback_ptr))
  /\ (forall s, ~ In s (map fst initialiser_list) ->
        dispositions q !! s = dispositions p !! s).
Proof.
  revert old_handlers p.
  induction initialiser_list as [|[k fk] rest IH];
    intros old_handlers p Hnodup Hfresh.
  - simpl. intros [= <- <-].
    split; [reflexivity|]. split; [reflexivity|]. split; [reflexivity|].
    split; [intros s f []|reflexivity].
  - cbn [map fst] in Hnodup, Hfresh.
    apply List.NoDup_cons_iff in Hnodup as [Hk Hrest].
    assert (Hfresh_k : old_handlers !! k = None)
      by (apply Hfresh; left; reflexivity).
    assert (Hfresh' : forall h s, In s (map fst rest) ->
                                  (<[k := h]> old_handlers) !! s = None).
    { intros h s Hs. rewrite lookup_insert_ne by (intros ->; contradiction).
      apply Hfresh. right. exact Hs. }
    cbn [install_pairs]. unfold sigaction.
    destruct (sigaction_fails o k) eqn:Hfail.
    + destruct throw_sig_error; cbn [Z.eqb andb]; [discriminate|].
      intros H.
      apply IH in H as (Hbl & Hfl & Hres & Hin & Hout);
        [|exact Hrest|apply Hfresh'].
      split; [exact Hbl|]. split; [exact Hfl|]. split; [|split].
      * intros s. rewrite Hres. apply restored_skip; assumption.
      * intros s f [[= -> ->]|Hs] Hok; [congruence|].
        apply Hin; assumption.
      * intros s Hs. apply Hout. intros H. apply Hs. right. exact H.
    + cbn [Z.eqb andb]. intros H.
      apply IH in H as (Hbl & Hfl & Hres & Hin & Hout);
        [|exact Hrest|apply Hfresh'].
      split; [exact Hbl|]. split; [exact Hfl|]. split; [|split].
      * intros s. rewrite Hres. apply restored_install; assumption.
      * intros s f [[= -> ->]|Hs] Hok; [|apply Hin; assumption].
        rewrite (Hout s Hk). cbn. apply lookup_insert_eq.
      * intros s Hs. rewrite Hout by (intros H; apply Hs; right; exact H).
        cbn. apply lookup_insert_ne. intros ->. apply Hs. left. reflexivity.
Qed.

(** X22. A construction from pairs with distinct signals that returns:
    each signal on which [sigaction] did not fail has the handler of the
    class with its own flags and [SA_SIGINFO], every signal not requested
    has its disposition as before, and the words are zero; when
    [sigaction] failed on none of the requested signals, which leaves out
    those that cannot be caught or blocked, exactly the requested signals
    are blocked in addition. And after the destructor, with the system
    calls answering the same way, the flag is clear and every signal has
    the disposition it had before the construction. *)
Theorem construct_pairs_round_trip (o : oracle)
    (initialiser_list : list (Z * Z)) (throw_sig_error : bool)
    (p p' : process) (self : t) :
  List.NoDup (map fst initialiser_list) ->
  construct_pairs NSIG SA_SIGINFO o initialiser_list throw_sig_error p
  = (p', Ok self) ->
  (forall s f, In (s, f) initialiser_list -> sigaction_fails o s = false ->
     dispositions p' !! s
     = Some (mkSigaction (Z.lor f SA_SIGINFO) handler_callback_ptr))
  /\ (forall s, ~ In s (map fst initialiser_list) ->
        dispositions p' !! s = dispositions p !! s)
  /\ sig_flags_ p' = flags_zero
  /\ ((forall s, In s (map fst initialiser_list) ->
                 sigaction_fails o s = false) ->
      forall s, s ∈ blocked p'
                <-> s ∈ blocked p \/ In s (map fst initialiser_list))
  /\ instance_exists_ (destruct_ o self p') = false
  /\ (forall s, disposition_of (destruct_ o self p') s = disposition_of p s).
Proof.
  intros Hnodup. unfold construct_pairs.
  destruct (instance_exists_ p); [discriminate|].
  destruct (first_illegal_pair NSIG initialiser_list); [discriminate|].
  unfold pthread_sigmask at 1.
  destruct (sigmask_errc o =? 0) eqn:Hmask; cbn [negb];
    [|intros H; rewrite Hmask in H; discriminate].
  destruct (install_pairs _ _ _ _ _ _ _) as [q [new_handlers|e]] eqn:Hinst;
    [|discriminate].
  unfold start_dispatcher.
  destruct (dispatcher_errc o =? 0); [|discriminate].
  intros [= <- <-].
  apply install_pairs_effect in Hinst
    as (Hbl & Hfl & Hres & Hin & Hout);
    [|exact Hnodup|intros s _; apply lookup_empty].
  split; [exact Hin|]. split; [exact Hout|]. split; [reflexivity|]. split.
  { intros _ s. cbn [blocked clear_sig_flags set_sig_flags].
    rewrite Hbl. cbn [blocked set_blocked set_instance_exists].
    rewrite elem_of_union, elem_of_add_all_pairs. reflexivity. }
  split; [reflexivity|].
  intros s. unfold destruct_. cbn [sigmask_ old_handlers_].
  destruct (restore_actions_spec o (add_all_pairs initialiser_list)
              new_handlers (clear_sig_flags q)) as (_ & _ & _ & Hdisp).
  change (disposition_of
            (restore_actions o (add_all_pairs initialiser_list) new_handlers
                             (clear_sig_flags q)) s
          = disposition_of p s).
  rewrite Hdisp.
  change (restored o new_handlers q s = disposition_of p s).
  rewrite Hres. unfold restored. rewrite lookup_empty. reflexivity.
Qed.

End SignalHandlerPairs.

(** X22 on Linux: SIGINT with flags 0 and SIGTERM with [SA_RESTART]
    (0x10000000): SIGTERM gets its own flags and is blocked, and the
    destructor puts the default disposition back. *)
Lemma construct_pairs_round_trip_witness :
  exists p' self,
    SignalHandler.construct_pairs 65 4 SignalHandler.linux_oracle
      [(2, 0); (15, 268435456)] true SignalHandler.fresh_process
    = (p', Ok self)
    /\ SignalHandler.dispositions p' !! 15
       = Some (SignalHandler.mkSigaction 268435460
                 SignalHandler.handler_callback_ptr)
    /\ 15 ∈ SignalHandler.blocked p'
    /\ SignalHandler.disposition_of
         (SignalHandler.destruct_ SignalHandler.linux_oracle self p') 15
       = SignalHandler.mkSigaction 0 SignalHandler.SIG_DFL.
Proof.
  destruct (construct_pairs_succeeds 65 4 SignalHandler.linux_oracle
              [(2, 0); (15, 268435456)] true SignalHandler.fresh_process
              eq_refl eq_refl eq_refl)
    as (p' & self & H).
  exists p', self. split; [exact H|].
  assert (Hnodup : List.NoDup (map fst [(2, 0); (15, 268435456)])).
  { repeat (apply List.NoDup_cons; [simpl; lia|]). apply List.NoDup_nil. }
  destruct (construct_pairs_round_trip 65 4 _ _ _ _ _ _ Hnodup H)
    as (Hin & _ & _ & Hbl & _ & Hdisp).
  split; [|split].
  - apply (Hin 15 268435456); [simpl; auto|reflexivity].
  - apply Hbl.
    + intros s [<-|[<-|[]]]; reflexivity.
    + right. simpl. auto.
  - exact (Hdisp 15).
Defined.

Section SignalMaskDecode.

Import SignalHandler SignalHandler.SIG_FLAGS_ENM.

Variable NSIG : Z.
Hypothesis NSIG_le_96 : NSIG <= 96.

(** X23. Reading the [SignalMask_t] that [pop_all_signals] or
    [test_all_signals] hands out after the deliveries [sigs] into zero
    words: for a legal signal [n], the word of its category has a bit in
    common with [signal_bitmask n] exactly when [n] is among [sigs]. *)
Theorem signal_mask_decodes (n : Z) (sigs : list Z) :
  illegal NSIG n = false ->
  to_bool (Z.land (mask_word (flagenm_of n)
                     (snd (fst (pop_all_signals
                                  (deliver_all NSIG sigs flags_zero)))))
                  (signal_bitmask NSIG n))
  = existsb (Z.eqb n) sigs
  /\ to_bool (Z.land (mask_word (flagenm_of n)
                        (snd (test_all_signals
                                (deliver_all NSIG sigs flags_zero))))
                     (signal_bitmask NSIG n))
     = existsb (Z.eqb n) sigs.
Proof.
  intros Hn.
  assert (H : test_signal NSIG n (deliver_all NSIG sigs flags_zero)
              = existsb (Z.eqb n) sigs).
  { rewrite (test_signal_deliver_all_from NSIG NSIG_le_96 n sigs flags_zero Hn).
    unfold test_signal. rewrite Hn. destruct (flagenm_of n); reflexivity. }
  unfold test_signal in H. rewrite Hn in H.
  split; rewrite <- H; destruct (flagenm_of n); reflexivity.
Qed.

End SignalMaskDecode.

(** X23 on Linux: after SIGINT and signal 40, the RT word of the mask
    holds the bit of signal 40 and the OS word does not hold that of
    SIGTERM. *)
Lemma signal_mask_decodes_witness :
  let out := snd (fst (SignalHandler.pop_all_signals
                         (SignalHandler.deliver_all 65 [2; 40]
                            SignalHandler.flags_zero))) in
  to_bool (Z.land (SignalHandler.mask_RT_sigs out)
                  (SignalHandler.signal_bitmask 65 40)) = true
  /\ to_bool (Z.land (SignalHandler.mask_OS_sigs out)
                     (SignalHandler.signal_bitmask 65 15)) = false.
Proof.
  intros out. split.
  - destruct (signal_mask_decodes 65 ltac:(lia) 40 [2; 40] eq_refl) as [H _].
    exact H.
  - destruct (signal_mask_decodes 65 ltac:(lia) 15 [2; 40] eq_refl) as [H _].
    exact H.
Defined.

(** C3. From the empty registry: thread 1 is spawned, a [spawn_thread]
    starts its thread but cannot make the entry, and the work body of
    thread 1 returns. Then [total_threads] is 1, [alive_threads] is
    [2^32 - 1], and [all_running] is true though the two differ and the
    only thread has finished. And with threads 1 and 2 spawned before the
    failing [spawn_thread]: once thread 1 has returned and thread 2 still
    runs, [any_running] is false. *)
Theorem all_running_after_insert_failure :
  (exists tm,
      ThreadManager.run
        [ThreadManager.ev_spawn (ThreadManager.started 1);
         ThreadManager.ev_spawn (ThreadManager.insert_throws 2);
         ThreadManager.ev_worker_returns 1]
        ThreadManager.init
      = Some tm
      /\ ThreadManager.total_threads tm = 1
      /\ ThreadManager.alive_threads tm = 4294967295
      /\ ThreadManager.all_running tm = true
      /\ ThreadManager.threads_ tm !! 1%positive
         = Some (ThreadManager.mkJthread false true))
  /\ (exists tm,
      ThreadManager.run
        [ThreadManager.ev_spawn (ThreadManager.started 1);
         ThreadManager.ev_spawn (ThreadManager.started 2);
         ThreadManager.ev_spawn (ThreadManager.insert_throws 3);
         ThreadManager.ev_worker_returns 1]
        ThreadManager.init
      = Some tm
      /\ ThreadManager.threads_ tm !! 1%positive
         = Some (ThreadManager.mkJthread false true)
      /\ ThreadManager.threads_ tm !! 2%positive
         = Some (ThreadManager.mkJthread false false)
      /\ ThreadManager.total_threads tm = 2
      /\ ThreadManager.alive_threads tm = 0
      /\ ThreadManager.all_running tm = false
      /\ ThreadManager.any_running tm = false).
Proof.
  split; eexists; (split; [reflexivity|]); repeat split.
Qed.
